(** * Autocomplete hooks: [useAutocomplete] and [useAutocompleteLoadingOnce]

    A shallow embedding of the two React hooks of the repository
    (hooks/useAutocomplete.tsx, the live-query variant, and
    hooks/useAutocompleteLoadingOnce.tsx, the preload variant) and the
    properties of their filtering, keyboard navigation, selection, fetch
    error handling and rendering.

    Modelling conventions.
    - A hook's [useState] cells form one record; a handler reads the cells
      of the render it was created in (its snapshot) and writes through
      the setters, which overwrite one cell each.
    - A handler is a computation in a small monad that threads the cells,
      collects the calls that leave the hook ([fetch], [onSelect]) and may
      throw.
    - An [async] function is cut at its [await]: the part before it runs
      with the event, the part after it runs when the request settles.
    - JavaScript numbers are [Z] (the index only moves by one, far from
      2^53); strings are [string], and [toLowerCase] is the ASCII part of
      the JavaScript one. *)

From Stdlib Require Import ZArith List String Ascii Bool Lia NArith.
From Stdlib Require Import DecimalString.
Import ListNotations.

Local Open Scope string_scope.
Local Open Scope list_scope.
Local Open Scope Z_scope.

(* ===================================================================== *)
(** ** Strings as the hooks use them                                      *)
(* ===================================================================== *)

Module JsString.

(** [c.toLowerCase()] on one character of an ASCII string: the letters
    A-Z go to a-z and every other character below 128 stays.  The strings of
    this development stand for ASCII strings only (see [is_ascii] below);
    on other strings [String.prototype.toLowerCase] is not this function,
    and every theorem that depends on the fold assumes ASCII strings. *)
Definition lower_ascii (c : ascii) : ascii :=
  let n := nat_of_ascii c in
  if (Nat.leb 65 n && Nat.leb n 90)%bool then ascii_of_nat (n + 32) else c.

(** [s.toLowerCase()] for an ASCII string [s]. *)
Fixpoint toLowerCase (s : string) : string :=
  match s with
  | EmptyString => EmptyString
  | String c s' => String (lower_ascii c) (toLowerCase s')
  end.

(** [s.startsWith(p)]. *)
Fixpoint startsWith (s p : string) {struct p} : bool :=
  match p, s with
  | EmptyString, _ => true
  | String _ _, EmptyString => false
  | String a p', String b s' => (Ascii.eqb a b && startsWith s' p')%bool
  end.

(** [s.includes(sub)]: [sub] occurs in [s] at some position. *)
Fixpoint includes (s sub : string) : bool :=
  if startsWith s sub then true
  else match s with
       | EmptyString => false
       | String _ s' => includes s' sub
       end.

(** Truthiness of a string in a condition: every string but the empty one. *)
Definition truthy (s : string) : bool := negb (String.eqb s "").

(** Template-literal rendering of a non-negative integer. *)
Definition of_N (n : N) : string := NilZero.string_of_uint (N.to_uint n).

End JsString.

Import JsString.

(* ===================================================================== *)
(** ** Data shared by the two hooks                                       *)
(* ===================================================================== *)

(** [interface Suggestion { id: number; name: string }] *)
Record Suggestion := { id : Z; name : string }.

Definition Suggestion_eqb (a b : Suggestion) : bool :=
  ((id a =? id b) && String.eqb (name a) (name b))%bool.

(** A record of the remote user listing: the two fields the hooks read and
    the rest of the object, which the hooks drop. *)
Record RemoteUser := { user_id : Z; user_name : string; user_rest : string }.

(** A thrown value: an [Error] object with its [name] and [message]. *)
Record Exn := { exn_name : string; exn_message : string }.

(** [new Error(message)] *)
Definition Error (message : string) : Exn :=
  {| exn_name := "Error"; exn_message := message |}.

(** The error of reading a property of [undefined]. *)
Definition TypeError (message : string) : Exn :=
  {| exn_name := "TypeError"; exn_message := message |}.

(** [`${error}`]: [Error.prototype.toString]. *)
Definition Exn_toString (e : Exn) : string :=
  if String.eqb (exn_name e) "" then exn_message e
  else if String.eqb (exn_message e) "" then exn_name e
  else (exn_name e ++ ": " ++ exn_message e)%string.

(** How a [fetch] settles: the promise rejects (network-level exception), or
    it resolves to a response with a status whose [json()] either rejects
    or yields the listing. *)
Inductive FetchOutcome :=
| Rejected (e : Exn)
| Resolved (status : N) (body : Exn + list RemoteUser).

(** [response.ok]: the status is in the range 200-299. *)
Definition response_ok (status : N) : bool :=
  (N.leb 200 status && N.leb status 299)%bool.

(** What leaves the hook. *)
Inductive Effect :=
| NetCall (url : string)        (* fetch(url) *)
| OnSelect (value : string)     (* props.onSelect(value) *)
| Uncaught (e : Exn).           (* an exception that escaped an event handler *)

Definition is_NetCall (e : Effect) : bool :=
  match e with NetCall _ => true | _ => false end.

Definition is_OnSelect (e : Effect) : bool :=
  match e with OnSelect _ => true | _ => false end.

(** Number of network calls in a trace. *)
Definition net_calls (tr : list Effect) : nat := List.length (filter is_NetCall tr).

(** [xs[i]] on an array: the element, or [undefined]. *)
Definition array_get {A} (xs : list A) (i : Z) : option A :=
  if i <? 0 then None else nth_error xs (Z.to_nat i).

(** [xs.length] *)
Definition array_length {A} (xs : list A) : Z := Z.of_nat (List.length xs).

(** What [renderSuggestions] returns: one of four lists, or [null].  Every
    list carries its [aria-expanded] attribute; the populated one carries, in
    order, each suggestion and whether it is the highlighted entry. *)
Inductive View :=
| LoadingView (expanded : bool)
| ErrorView (expanded : bool) (message : string)
| SuggestionsView (expanded : bool) (items : list (Suggestion * bool))
| NoMatchView (expanded : bool).

(** Position-indexed map, as [xs.map((x, index) => ...)]. *)
Fixpoint mapi_from {A B} (f : A -> Z -> B) (i : Z) (xs : list A) : list B :=
  match xs with
  | [] => []
  | x :: xs' => f x i :: mapi_from f (i + 1) xs'
  end.

Definition mapi {A B} (f : A -> Z -> B) (xs : list A) : list B := mapi_from f 0 xs.

(* ===================================================================== *)
(** ** The handler monad                                                  *)
(* ===================================================================== *)

Module Handler.
Section Monad.
Variable S : Type.

(** A computation over the cells [S]: it ends normally or by a throw, in
    both cases with the cells as written so far and the calls made. *)
Definition M (A : Type) : Type := S -> (Exn + A) * S * list Effect.

Definition ret {A} (a : A) : M A := fun s => (inr a, s, []).

Definition bind {A B} (m : M A) (f : A -> M B) : M B :=
  fun s =>
    match m s with
    | (inl e, s1, t1) => (inl e, s1, t1)
    | (inr a, s1, t1) =>
        match f a s1 with
        | (r, s2, t2) => (r, s2, t1 ++ t2)
        end
    end.

Definition throw {A} (e : Exn) : M A := fun s => (inl e, s, []).

Definition emit (x : Effect) : M unit := fun s => (inr tt, s, [x]).

Definition modify (f : S -> S) : M unit := fun s => (inr tt, f s, []).

(** [try { body } catch (e) { handler e } finally { final }] *)
Definition try_catch_finally (body : M unit) (handler : Exn -> M unit)
           (final : M unit) : M unit :=
  fun s =>
    match body s with
    | (r, s1, t1) =>
        match (match r with
               | inl e => handler e s1
               | inr a => (inr a, s1, [])
               end) with
        | (r', s2, t2) =>
            match final s2 with
            | (inl e, s3, t3) => (inl e, s3, t1 ++ t2 ++ t3)
            | (inr _, s3, t3) => (r', s3, t1 ++ t2 ++ t3)
            end
        end
    end.

End Monad.

Arguments ret {S A} a.
Arguments bind {S A B} m f.
Arguments throw {S A} e.
Arguments emit {S} x.
Arguments modify {S} f.
Arguments try_catch_finally {S} body handler final.

End Handler.

Import Handler.

Declare Scope handler_scope.
Delimit Scope handler_scope with handler.
Notation "x <- m ;; k" := (bind m (fun x => k))
  (at level 61, m at next level, right associativity) : handler_scope.
Notation "m ;; k" := (bind m (fun _ => k))
  (at level 61, right associativity) : handler_scope.
Local Open Scope handler_scope.

(** The message both hooks record in their [catch]. *)
Definition fetch_error_message (e : Exn) : string :=
  ("Error fetching suggestions - " ++ Exn_toString e ++ ", please try again later")%string.

(** [await fetch(url)] once the request has settled, followed by the check
    of [response.ok] and [await response.json()]. *)
Definition await_json {S} (outcome : FetchOutcome) : M S (list RemoteUser) :=
  match outcome with
  | Rejected e => throw e
  | Resolved status body =>
      if negb (response_ok status)
      then throw (Error ("HTTP error! status: " ++ of_N status)%string)
      else match body with
           | inl e => throw e
           | inr data => ret data
           end
  end.

(** [{ id: user.id, name: user.name }] *)
Definition to_suggestion (user : RemoteUser) : Suggestion :=
  {| id := user_id user; name := user_name user |}.

(** The message of the [TypeError] raised by [suggestion.name] when
    [suggestion] is [undefined]. *)
Definition undefined_name : Exn :=
  TypeError "Cannot read properties of undefined (reading 'name')".

(** [suggestionsRef.current && !suggestionsRef.current.contains(e.target)]:
    the reference is [null] ([None]) or the mounted list, which contains the
    event target or not. *)
Definition outside_of (ref_contains_target : option bool) : bool :=
  match ref_contains_target with
  | Some contains => negb contains
  | None => false
  end.

(** Truthiness of [error : string | null]. *)
Definition truthy_error (error : option string) : bool :=
  match error with
  | Some message => truthy message
  | None => false
  end.

(* ===================================================================== *)
(** ** The live-query hook: [useAutocomplete]                             *)
(* ===================================================================== *)

Module Live.

(** The [useState] cells of the hook. *)
Record State := {
  inputValue : string;
  filteredSuggestions : list Suggestion;
  highlightedIndex : Z;
  showSuggestions : bool;
  loading : bool;
  error : option string
}.

(** The cells at the first render, for the [query] prop. *)
Definition initial (query : string) : State :=
  {| inputValue := query; filteredSuggestions := []; highlightedIndex := -1;
     showSuggestions := false; loading := false; error := None |}.

Definition setInputValue (v : string) : M State unit :=
  modify (fun s =>
    {| inputValue := v; filteredSuggestions := filteredSuggestions s;
       highlightedIndex := highlightedIndex s; showSuggestions := showSuggestions s;
       loading := loading s; error := error s |}).

Definition setFilteredSuggestions (v : list Suggestion) : M State unit :=
  modify (fun s =>
    {| inputValue := inputValue s; filteredSuggestions := v;
       highlightedIndex := highlightedIndex s; showSuggestions := showSuggestions s;
       loading := loading s; error := error s |}).

Definition setHighlightedIndex (v : Z) : M State unit :=
  modify (fun s =>
    {| inputValue := inputValue s; filteredSuggestions := filteredSuggestions s;
       highlightedIndex := v; showSuggestions := showSuggestions s;
       loading := loading s; error := error s |}).

Definition setShowSuggestions (v : bool) : M State unit :=
  modify (fun s =>
    {| inputValue := inputValue s; filteredSuggestions := filteredSuggestions s;
       highlightedIndex := highlightedIndex s; showSuggestions := v;
       loading := loading s; error := error s |}).

Definition setLoading (v : bool) : M State unit :=
  modify (fun s =>
    {| inputValue := inputValue s; filteredSuggestions := filteredSuggestions s;
       highlightedIndex := highlightedIndex s; showSuggestions := showSuggestions s;
       loading := v; error := error s |}).

Definition setError (v : option string) : M State unit :=
  modify (fun s =>
    {| inputValue := inputValue s; filteredSuggestions := filteredSuggestions s;
       highlightedIndex := highlightedIndex s; showSuggestions := showSuggestions s;
       loading := loading s; error := v |}).

(** The request of [fetchFilteredSuggestions]. *)
Definition url (query : string) : string :=
  ("https://jsonplaceholder.typicode.com/users?q=" ++ query)%string.

(** The filter and projection of [fetchFilteredSuggestions]. *)
Definition filter_users (query : string) (data : list RemoteUser) : list Suggestion :=
  map to_suggestion
    (filter (fun user => includes (toLowerCase (user_name user)) (toLowerCase query))
            data).

(** [fetchFilteredSuggestions(query)] up to its [await fetch(...)]. *)
Definition fetchFilteredSuggestions_start (query : string) : M State unit :=
  setError None ;;
  setLoading true ;;
  emit (NetCall (url query)).

(** [fetchFilteredSuggestions(query)] from the settled request on: the
    rest of the [try], the [catch] and the [finally]. *)
Definition fetchFilteredSuggestions_settle (query : string) (outcome : FetchOutcome)
  : M State unit :=
  try_catch_finally
    (data <- await_json outcome ;;
     setFilteredSuggestions (filter_users query data) ;;
     setShowSuggestions true)
    (fun e =>
       setError (Some (fetch_error_message e)) ;;
       setFilteredSuggestions [])
    (setLoading false).

(** [handleChange(e)] with [e.currentTarget.value = userInput], up to the
    [await] inside [fetchFilteredSuggestions]; nothing follows that call. *)
Definition handleChange (snap : State) (userInput : string) : M State unit :=
  if negb (String.eqb (inputValue snap) userInput) then
    setInputValue userInput ;;
    if truthy userInput then fetchFilteredSuggestions_start userInput
    else
      setFilteredSuggestions [] ;;
      setShowSuggestions false ;;
      setError None
  else ret tt.

(** [handleClick(suggestion)]; the parameter is [undefined] when the caller
    indexed the array out of range. *)
Definition handleClick (suggestion : option Suggestion) : M State unit :=
  match suggestion with
  | None => throw undefined_name
  | Some s =>
      setInputValue (name s) ;;
      setFilteredSuggestions [] ;;
      setShowSuggestions false ;;
      setHighlightedIndex (-1) ;;
      setError None ;;
      emit (OnSelect (name s))
  end.

(** [handleKeyDown(e)] with [e.key = key]. *)
Definition handleKeyDown (snap : State) (key : string) : M State unit :=
  if (String.eqb key "ArrowDown"
      && (highlightedIndex snap <? array_length (filteredSuggestions snap) - 1))%bool
  then setHighlightedIndex (highlightedIndex snap + 1)
  else if (String.eqb key "ArrowUp" && (highlightedIndex snap >? 0))%bool
  then setHighlightedIndex (highlightedIndex snap - 1)
  else if String.eqb key "Enter" then
    if highlightedIndex snap >=? 0
    then handleClick (array_get (filteredSuggestions snap) (highlightedIndex snap))
    else if array_length (filteredSuggestions snap) >? 0
    then handleClick (array_get (filteredSuggestions snap) 0)
    else setShowSuggestions false
  else ret tt.

(** [handleClickOutside(e)] of the [mousedown] listener. *)
Definition handleClickOutside (ref_contains_target : option bool) : M State unit :=
  if outside_of ref_contains_target then setShowSuggestions false else ret tt.

(** [renderSuggestions()]; [None] is [null].  The text inside each entry
    is left to [Emphasis.getHighlightedText]: in the code the populated
    branch builds it with [new RegExp] of the input, which throws a
    [SyntaxError] for an input that is not the source of a regular
    expression.  This function gives the populated view as it is for an
    input [new RegExp] accepts; theorems on that branch assume
    [Emphasis.literal_pattern] of the input. *)
Definition renderSuggestions (snap : State) : option View :=
  if loading snap then Some (LoadingView (showSuggestions snap))
  else if truthy_error (error snap) then
    Some (ErrorView (showSuggestions snap)
                    (match error snap with Some m => m | None => "" end))
  else if (showSuggestions snap && truthy (inputValue snap))%bool then
    if array_length (filteredSuggestions snap) >? 0
    then Some (SuggestionsView (showSuggestions snap)
                 (mapi (fun suggestion index =>
                          (suggestion, index =? highlightedIndex snap))
                       (filteredSuggestions snap)))
    else Some (NoMatchView (showSuggestions snap))
  else None.

(** *** The hook in the event loop *)

(** The cells and the queries whose request has not settled yet. *)
Record World := { cells : State; inflight : list string }.

Inductive Event :=
| Change (userInput : string)              (* onChange of the input *)
| KeyDown (key : string)                   (* onKeyDown of the input *)
| Click (suggestion : Suggestion)          (* onClick of a rendered entry *)
| MouseDown (inside : bool)                (* mousedown on the document *)
| Settle (query : string) (outcome : FetchOutcome).  (* a request settles *)

(** The entries on screen, which are the ones that can be clicked. *)
Definition clickable (snap : State) : list Suggestion :=
  match renderSuggestions snap with
  | Some (SuggestionsView _ items) => map fst items
  | _ => []
  end.

(** Removes the first occurrence of a query. *)
Fixpoint remove_first (q : string) (qs : list string) : list string :=
  match qs with
  | [] => []
  | q' :: qs' => if String.eqb q q' then qs' else q' :: remove_first q qs'
  end.

(** An event handler run to its end; an exception that escapes it is
    reported and the cells written before it stay written. *)
Definition run_handler (m : M State unit) (s : State) : State * list Effect :=
  match m s with
  | (inl e, s', tr) => (s', tr ++ [Uncaught e])
  | (inr _, s', tr) => (s', tr)
  end.

(** One event.  [None]: the event cannot occur in this world (a click on
    an entry that is not on screen, a mousedown inside a list that is not
    mounted, a request settling that was never issued). *)
Definition step (w : World) (ev : Event) : option (World * list Effect) :=
  match ev with
  | Change userInput =>
      let '(s', tr) := run_handler (handleChange (cells w) userInput) (cells w) in
      Some ({| cells := s';
               inflight := if existsb is_NetCall tr
                           then inflight w ++ [userInput] else inflight w |}, tr)
  | KeyDown key =>
      let '(s', tr) := run_handler (handleKeyDown (cells w) key) (cells w) in
      Some ({| cells := s'; inflight := inflight w |}, tr)
  | Click suggestion =>
      if existsb (Suggestion_eqb suggestion) (clickable (cells w)) then
        let '(s', tr) := run_handler (handleClick (Some suggestion)) (cells w) in
        Some ({| cells := s'; inflight := inflight w |}, tr)
      else None
  | MouseDown inside =>
      match renderSuggestions (cells w) with
      | Some _ =>
          let '(s', tr) := run_handler (handleClickOutside (Some inside)) (cells w) in
          Some ({| cells := s'; inflight := inflight w |}, tr)
      | None =>
          if inside then None
          else
            let '(s', tr) := run_handler (handleClickOutside None) (cells w) in
            Some ({| cells := s'; inflight := inflight w |}, tr)
      end
  | Settle query outcome =>
      if existsb (String.eqb query) (inflight w) then
        let '(s', tr) :=
          run_handler (fetchFilteredSuggestions_settle query outcome) (cells w) in
        Some ({| cells := s'; inflight := remove_first query (inflight w) |}, tr)
      else None
  end.

(** The world after the first render. *)
Definition mount (query : string) : World :=
  {| cells := initial query; inflight := [] |}.

(** A sequence of events from a world, with the trace of what left the
    hook; [None] when one of the events cannot occur. *)
Fixpoint run (w : World) (evs : list Event) : option (World * list Effect) :=
  match evs with
  | [] => Some (w, [])
  | ev :: evs' =>
      match step w ev with
      | None => None
      | Some (w', tr) =>
          match run w' evs' with
          | None => None
          | Some (w'', tr') => Some (w'', tr ++ tr')
          end
      end
  end.

(** The worlds the hook can be in, for the [query] prop. *)
Definition reachable (query : string) (w : World) : Prop :=
  exists evs tr, run (mount query) evs = Some (w, tr).

End Live.

(* ===================================================================== *)
(** ** The preload hook: [useAutocompleteLoadingOnce]                     *)
(* ===================================================================== *)

Module Preload.

(** The [useState] cells of the hook. *)
Record State := {
  inputValue : string;
  allSuggestions : list Suggestion;
  filteredSuggestions : list Suggestion;
  highlightedIndex : Z;
  showSuggestions : bool;
  loading : bool;
  error : option string
}.

(** The cells at the first render, for the [query] prop. *)
Definition initial (query : string) : State :=
  {| inputValue := query; allSuggestions := []; filteredSuggestions := [];
     highlightedIndex := -1; showSuggestions := false; loading := false;
     error := None |}.

Definition setInputValue (v : string) : M State unit :=
  modify (fun s =>
    {| inputValue := v; allSuggestions := allSuggestions s;
       filteredSuggestions := filteredSuggestions s;
       highlightedIndex := highlightedIndex s; showSuggestions := showSuggestions s;
       loading := loading s; error := error s |}).

Definition setAllSuggestions (v : list Suggestion) : M State unit :=
  modify (fun s =>
    {| inputValue := inputValue s; allSuggestions := v;
       filteredSuggestions := filteredSuggestions s;
       highlightedIndex := highlightedIndex s; showSuggestions := showSuggestions s;
       loading := loading s; error := error s |}).

Definition setFilteredSuggestions (v : list Suggestion) : M State unit :=
  modify (fun s =>
    {| inputValue := inputValue s; allSuggestions := allSuggestions s;
       filteredSuggestions := v;
       highlightedIndex := highlightedIndex s; showSuggestions := showSuggestions s;
       loading := loading s; error := error s |}).

Definition setHighlightedIndex (v : Z) : M State unit :=
  modify (fun s =>
    {| inputValue := inputValue s; allSuggestions := allSuggestions s;
       filteredSuggestions := filteredSuggestions s;
       highlightedIndex := v; showSuggestions := showSuggestions s;
       loading := loading s; error := error s |}).

Definition setShowSuggestions (v : bool) : M State unit :=
  modify (fun s =>
    {| inputValue := inputValue s; allSuggestions := allSuggestions s;
       filteredSuggestions := filteredSuggestions s;
       highlightedIndex := highlightedIndex s; showSuggestions := v;
       loading := loading s; error := error s |}).

Definition setLoading (v : bool) : M State unit :=
  modify (fun s =>
    {| inputValue := inputValue s; allSuggestions := allSuggestions s;
       filteredSuggestions := filteredSuggestions s;
       highlightedIndex := highlightedIndex s; showSuggestions := showSuggestions s;
       loading := v; error := error s |}).

Definition setError (v : option string) : M State unit :=
  modify (fun s =>
    {| inputValue := inputValue s; allSuggestions := allSuggestions s;
       filteredSuggestions := filteredSuggestions s;
       highlightedIndex := highlightedIndex s; showSuggestions := showSuggestions s;
       loading := loading s; error := v |}).

(** The request of [fetchAllSuggestions]. *)
Definition url : string := "https://jsonplaceholder.typicode.com/users".

(** [fetchAllSuggestions()] up to its [await fetch(...)]. *)
Definition fetchAllSuggestions_start : M State unit :=
  setError None ;;
  setLoading true ;;
  emit (NetCall url).

(** [fetchAllSuggestions()] from the settled request on. *)
Definition fetchAllSuggestions_settle (outcome : FetchOutcome) : M State unit :=
  try_catch_finally
    (data <- await_json outcome ;;
     setAllSuggestions (map to_suggestion data))
    (fun e =>
       setError (Some (fetch_error_message e)) ;;
       setAllSuggestions [])
    (setLoading false).

(** The local filter of [handleChange]. *)
Definition filter_suggestions (userInput : string) (all : list Suggestion)
  : list Suggestion :=
  filter (fun suggestion =>
            includes (toLowerCase (name suggestion)) (toLowerCase userInput))
         all.

(** [handleChange(e)] with [e.currentTarget.value = userInput]. *)
Definition handleChange (snap : State) (userInput : string) : M State unit :=
  setInputValue userInput ;;
  if truthy userInput then
    setFilteredSuggestions (filter_suggestions userInput (allSuggestions snap)) ;;
    setShowSuggestions true
  else
    setFilteredSuggestions [] ;;
    setShowSuggestions false.

(** [handleClick(suggestion)]; the parameter is [undefined] when the caller
    indexed the array out of range. *)
Definition handleClick (suggestion : option Suggestion) : M State unit :=
  match suggestion with
  | None => throw undefined_name
  | Some s =>
      setInputValue (name s) ;;
      setFilteredSuggestions [] ;;
      setShowSuggestions false ;;
      setHighlightedIndex (-1) ;;
      setError None ;;
      emit (OnSelect (name s))
  end.

(** [handleKeyDown(e)] with [e.key = key]. *)
Definition handleKeyDown (snap : State) (key : string) : M State unit :=
  if (String.eqb key "ArrowDown"
      && (highlightedIndex snap <? array_length (filteredSuggestions snap) - 1))%bool
  then setHighlightedIndex (highlightedIndex snap + 1)
  else if (String.eqb key "ArrowUp" && (highlightedIndex snap >? 0))%bool
  then setHighlightedIndex (highlightedIndex snap - 1)
  else if String.eqb key "Enter" then
    if highlightedIndex snap >=? 0
    then handleClick (array_get (filteredSuggestions snap) (highlightedIndex snap))
    else if array_length (filteredSuggestions snap) >? 0
    then handleClick (array_get (filteredSuggestions snap) 0)
    else setShowSuggestions false
  else ret tt.

(** [handleClickOutside(e)] of the [mousedown] listener. *)
Definition handleClickOutside (ref_contains_target : option bool) : M State unit :=
  if outside_of ref_contains_target then setShowSuggestions false else ret tt.

(** [renderSuggestions()]; [None] is [null].  The text inside each entry
    is left to [Emphasis.getHighlightedText]: in the code the populated
    branch builds it with [new RegExp] of the input, which throws a
    [SyntaxError] for an input that is not the source of a regular
    expression.  This function gives the populated view as it is for an
    input [new RegExp] accepts; theorems on that branch assume
    [Emphasis.literal_pattern] of the input. *)
Definition renderSuggestions (snap : State) : option View :=
  if (loading snap && truthy (inputValue snap))%bool
  then Some (LoadingView (showSuggestions snap))
  else if (truthy_error (error snap) && truthy (inputValue snap))%bool then
    Some (ErrorView (showSuggestions snap)
                    (match error snap with Some m => m | None => "" end))
  else if (showSuggestions snap && truthy (inputValue snap))%bool then
    if array_length (filteredSuggestions snap) >? 0
    then Some (SuggestionsView (showSuggestions snap)
                 (mapi (fun suggestion index =>
                          (suggestion, index =? highlightedIndex snap))
                       (filteredSuggestions snap)))
    else Some (NoMatchView (showSuggestions snap))
  else None.

(** *** The hook in the event loop *)

(** The cells and whether the mount-time request has not settled yet. *)
Record World := { cells : State; pending : bool }.

Inductive Event :=
| Change (userInput : string)
| KeyDown (key : string)
| Click (suggestion : Suggestion)
| MouseDown (inside : bool)
| Settle (outcome : FetchOutcome).

Definition clickable (snap : State) : list Suggestion :=
  match renderSuggestions snap with
  | Some (SuggestionsView _ items) => map fst items
  | _ => []
  end.

Definition run_handler (m : M State unit) (s : State) : State * list Effect :=
  match m s with
  | (inl e, s', tr) => (s', tr ++ [Uncaught e])
  | (inr _, s', tr) => (s', tr)
  end.

(** One event; [None] when the event cannot occur in this world. *)
Definition step (w : World) (ev : Event) : option (World * list Effect) :=
  match ev with
  | Change userInput =>
      let '(s', tr) := run_handler (handleChange (cells w) userInput) (cells w) in
      Some ({| cells := s'; pending := pending w |}, tr)
  | KeyDown key =>
      let '(s', tr) := run_handler (handleKeyDown (cells w) key) (cells w) in
      Some ({| cells := s'; pending := pending w |}, tr)
  | Click suggestion =>
      if existsb (Suggestion_eqb suggestion) (clickable (cells w)) then
        let '(s', tr) := run_handler (handleClick (Some suggestion)) (cells w) in
        Some ({| cells := s'; pending := pending w |}, tr)
      else None
  | MouseDown inside =>
      match renderSuggestions (cells w) with
      | Some _ =>
          let '(s', tr) := run_handler (handleClickOutside (Some inside)) (cells w) in
          Some ({| cells := s'; pending := pending w |}, tr)
      | None =>
          if inside then None
          else
            let '(s', tr) := run_handler (handleClickOutside None) (cells w) in
            Some ({| cells := s'; pending := pending w |}, tr)
      end
  | Settle outcome =>
      if pending w then
        let '(s', tr) := run_handler (fetchAllSuggestions_settle outcome) (cells w) in
        Some ({| cells := s'; pending := false |}, tr)
      else None
  end.

(** The first render followed by the mount effect, which starts the one
    request of the hook. *)
Definition mount (query : string) : World * list Effect :=
  let '(s', tr) := run_handler fetchAllSuggestions_start (initial query) in
  ({| cells := s'; pending := true |}, tr).

Fixpoint run (w : World) (evs : list Event) : option (World * list Effect) :=
  match evs with
  | [] => Some (w, [])
  | ev :: evs' =>
      match step w ev with
      | None => None
      | Some (w', tr) =>
          match run w' evs' with
          | None => None
          | Some (w'', tr') => Some (w'', tr ++ tr')
          end
      end
  end.

(** The life of a mounted component: the mount, then the events; the
    trace is everything that left the hook since the mount. *)
Definition lifetime (query : string) (evs : list Event)
  : option (World * list Effect) :=
  let '(w0, tr0) := mount query in
  match run w0 evs with
  | None => None
  | Some (w, tr) => Some (w, tr0 ++ tr)
  end.

Definition reachable (query : string) (w : World) : Prop :=
  exists evs tr, lifetime query evs = Some (w, tr).

End Preload.

(* ===================================================================== *)
(** ** Emphasis of the matched text: [getHighlightedText]                 *)
(* ===================================================================== *)

Module Emphasis.

(** The characters that are syntax in the source of a regular expression. *)
Definition regex_syntax : list ascii := list_ascii_of_string "\^$.*+?()[]{}|".

(** A pattern source without syntax characters: [new RegExp] accepts it, and
    as a regular expression it matches its own text and nothing else (up to
    case under the [i] flag).  On other sources [new RegExp] may throw a
    [SyntaxError] or match differently; they are outside this model. *)
Fixpoint literal_pattern (s : string) : bool :=
  match s with
  | EmptyString => true
  | String c s' => (negb (existsb (Ascii.eqb c) regex_syntax) && literal_pattern s')%bool
  end.

(** [s.substring(0, n)] *)
Fixpoint take (n : nat) (s : string) : string :=
  match n, s with
  | S n', String c s' => String c (take n' s')
  | _, _ => EmptyString
  end.

(** [s.substring(n)] *)
Fixpoint drop (n : nat) (s : string) : string :=
  match n, s with
  | S n', String _ s' => drop n' s'
  | _, _ => s
  end.

(** The loop of [text.split(/(pattern)/gi)] for ASCII strings and a
    non-empty literal pattern: [seg] is the text since the end of the last match, [rest] the
    text from the position under test.  A match at that position closes the
    segment and is itself put in the result, as the captured group; the scan
    goes on behind it.  The fuel bounds the positions still to test; the
    result is empty when it runs out. *)
Fixpoint split_loop (fuel : nat) (pattern seg rest : string) : list string :=
  match fuel with
  | O => []
  | S fuel' =>
      match rest with
      | EmptyString => [seg]
      | String c rest' =>
          if startsWith (toLowerCase rest) (toLowerCase pattern)
          then seg :: take (String.length pattern) rest
                   :: split_loop fuel' pattern EmptyString
                        (drop (String.length pattern) rest)
          else split_loop fuel' pattern (seg ++ String c EmptyString)%string rest'
      end
  end.

(** [text.split(new RegExp(`(${highlight})`, 'gi'))], for a [highlight]
    that is not empty and holds no syntax character. *)
Definition split_captured (text highlight : string) : list string :=
  split_loop (S (String.length text)) highlight EmptyString text.

(** [getHighlightedText(text, highlight)]: the parts in order, each with
    whether it is wrapped in the [highlight] span. *)
Definition getHighlightedText (text highlight : string) : list (string * bool) :=
  map (fun part =>
         (part, String.eqb (toLowerCase part) (toLowerCase highlight)))
      (split_captured text highlight).

(** The text a list of parts displays. *)
Definition displayed (parts : list (string * bool)) : string :=
  fold_right (fun part acc => (fst part ++ acc)%string) EmptyString parts.

(** For the proofs: no match starts inside the segment: at no position of [seg] does the
    text from there on begin with the pattern up to case. *)
Definition unmatched (pattern seg rest : string) : Prop :=
  forall a b : string,
    seg = (a ++ b)%string -> b <> "" ->
    startsWith (toLowerCase (b ++ rest)) (toLowerCase pattern) = false.

End Emphasis.

(* ===================================================================== *)
(** ** Case-insensitive containment, as the specification words it        *)
(* ===================================================================== *)

(** Two strings are equal up to the case of their letters. *)
Definition eq_ignoring_case (a b : string) : Prop :=
  toLowerCase a = toLowerCase b.

(** [query] occurs in [text] as a substring, up to the case of letters:
    some stretch of [text] equals [query] up to case. *)
Definition contains_ignoring_case (text query : string) : Prop :=
  exists pre mid post,
    text = (pre ++ mid ++ post)%string /\ eq_ignoring_case mid query.

(* ===================================================================== *)
(** ** ASCII strings, and case-insensitive containment letter by letter   *)
(* ===================================================================== *)

(** A character of an ASCII string. *)
Definition is_ascii_char (c : ascii) : bool := Nat.ltb (nat_of_ascii c) 128.

(** An ASCII string: the strings on which this development stands for the
    JavaScript strings of the code. *)
Fixpoint is_ascii (s : string) : bool :=
  match s with
  | EmptyString => true
  | String c s' => (is_ascii_char c && is_ascii s')%bool
  end.

(** A listing, and a cache, whose names are ASCII strings. *)
Definition ascii_users (data : list RemoteUser) : Prop :=
  Forall (fun user => is_ascii (user_name user) = true) data.

Definition ascii_names (all : list Suggestion) : Prop :=
  Forall (fun s => is_ascii (name s) = true) all.

(** An answer whose listing, if it has one, holds ASCII names. *)
Definition ascii_answer (outcome : FetchOutcome) : Prop :=
  match outcome with
  | Resolved _ (inr data) => ascii_users data
  | _ => True
  end.

(** An event of the preload hook that brings in ASCII strings only. *)
Definition preload_ascii_event (ev : Preload.Event) : Prop :=
  match ev with
  | Preload.Change userInput => is_ascii userInput = true
  | Preload.Settle outcome => ascii_answer outcome
  | _ => True
  end.

(** [upper] is a capital letter and [lower] the same letter in lower case. *)
Definition letter_pair (upper lower : ascii) : Prop :=
  (65 <= nat_of_ascii upper <= 90)%nat
  /\ nat_of_ascii lower = (nat_of_ascii upper + 32)%nat.

(** Two characters are the same up to case: the same character, or the two
    cases of one letter. *)
Definition same_letter (a b : ascii) : Prop :=
  a = b \/ letter_pair a b \/ letter_pair b a.

(** Two strings are the same up to case: of the same length and the same
    up to case at each position. *)
Fixpoint same_text (a b : string) : Prop :=
  match a, b with
  | EmptyString, EmptyString => True
  | String x a', String y b' => same_letter x y /\ same_text a' b'
  | _, _ => False
  end.

(** [query] occurs in [text] up to case: some stretch of [text] is the
    same as [query] up to case. *)
Definition occurs_ignoring_case (text query : string) : Prop :=
  exists pre mid post,
    text = (pre ++ mid ++ post)%string /\ same_text mid query.

(* ===================================================================== *)
(** ** Failed requests                                                    *)
(* ===================================================================== *)

(** The exception a settled request raises in the [try] of either hook,
    if it raises one: what [await_json] throws. *)
Definition failure (outcome : FetchOutcome) : option Exn :=
  match await_json (S := unit) outcome tt with
  | (inl e, _, _) => Some e
  | (inr _, _, _) => None
  end.

(** The world of the preload hook after the mount and a sequence of events
    (the mount's world if one of the events cannot occur). *)
Definition preload_after (query : string) (evs : list Preload.Event) : Preload.World :=
  match Preload.lifetime query evs with
  | Some (w, _) => w
  | None => fst (Preload.mount query)
  end.

(** The world of the live-query hook after a sequence of events. *)
Definition live_after (query : string) (evs : list Live.Event) : Live.World :=
  match Live.run (Live.mount query) evs with
  | Some (w, _) => w
  | None => Live.mount query
  end.

(** The change events of a sequence. *)
Definition changes (evs : list Live.Event) : list string :=
  flat_map (fun ev => match ev with Live.Change v => [v] | _ => [] end) evs.

(* ===================================================================== *)
(** ** Computations that make no network call                             *)
(* ===================================================================== *)

(** A computation is quiet when, from any cells, its trace holds no
    network call. *)
Definition quiet {S A} (m : M S A) : Prop :=
  forall s, net_calls (snd (m s)) = 0%nat.

(* ===================================================================== *)
(** ** Sample data                                                        *)
(* ===================================================================== *)

Module Sample.

Definition margo : RemoteUser :=
  {| user_id := 1; user_name := "Margo"; user_rest := "margo@example.org" |}.

Definition mark : RemoteUser :=
  {| user_id := 2; user_name := "Mark"; user_rest := "mark@example.org" |}.

Definition ervin : RemoteUser :=
  {| user_id := 3; user_name := "Ervin Howell"; user_rest := "" |}.

Definition listing : list RemoteUser := [margo; mark; ervin].

(** A request that succeeds with the listing. *)
Definition ok_listing : FetchOutcome := Resolved 200 (inr listing).

(** A network-level failure. *)
Definition failed_to_fetch : Exn := TypeError "Failed to fetch".

(** Cells of the live-query hook with two entries, none highlighted. *)
Definition live_two : Live.State :=
  {| Live.inputValue := "mar";
     Live.filteredSuggestions := [to_suggestion margo; to_suggestion mark];
     Live.highlightedIndex := -1; Live.showSuggestions := true;
     Live.loading := false; Live.error := None |}.


(** Preload hook: the listing arrives, the user types "mar", moves to the
    first entry and goes on typing until nothing matches. *)
Definition preload_none_left : list Preload.Event :=
  [Preload.Settle ok_listing; Preload.Change "mar"; Preload.KeyDown "ArrowDown";
   Preload.Change "xyz"].

(** Preload hook: the user moves to the second of two entries and goes on
    typing until one entry matches. *)
Definition preload_one_left : list Preload.Event :=
  [Preload.Settle ok_listing; Preload.Change "mar"; Preload.KeyDown "ArrowDown";
   Preload.KeyDown "ArrowDown"; Preload.Change "marg"].

(** Live-query hook: the same, each keystroke answered by the listing. *)
Definition live_one_left : list Live.Event :=
  [Live.Change "mar"; Live.Settle "mar" ok_listing; Live.KeyDown "ArrowDown";
   Live.KeyDown "ArrowDown"; Live.Change "marg"; Live.Settle "marg" ok_listing].

(** Live-query hook: the user types a letter and deletes it before the
    request for it is answered. *)
Definition live_late_answer : list Live.Event :=
  [Live.Change "a"; Live.Change ""; Live.Settle "a" ok_listing].

(** Live-query hook: the user types a letter and deletes it; the request
    is still unanswered. *)
Definition live_typed_and_deleted : list Live.Event :=
  [Live.Change "m"; Live.Change ""].

(** Live-query hook: a query that matches nothing is answered, and the
    user types on. *)
Definition live_refetch_no_match : list Live.Event :=
  [Live.Change "x"; Live.Settle "x" ok_listing; Live.Change "xy"].

End Sample.

(** Splits the conjunctions of a goal, and nothing else. *)
Ltac split_conj := repeat match goal with |- _ /\ _ => split end.

(* ===================================================================== *)
(** ** Lemmas on strings                                                  *)
(* ===================================================================== *)

Section StringLemmas.

Lemma startsWith_spec (s p : string) :
  startsWith s p = true <-> exists post, s = (p ++ post)%string.
Proof.
  revert s. induction p as [|a p IH]; intros s; simpl.
  - split; [intros _; now exists s | reflexivity].
  - destruct s as [|b s].
    + split; [discriminate | intros [post H]; discriminate].
    + rewrite andb_true_iff, IH. split.
      * intros [Hab [post ->]]. apply Ascii.eqb_eq in Hab. subst.
        now exists post.
      * intros [post H]. injection H as -> ->. split.
        -- apply Ascii.eqb_refl.
        -- now exists post.
Qed.

Lemma includes_spec (s sub : string) :
  includes s sub = true <-> exists pre post, s = (pre ++ sub ++ post)%string.
Proof.
  induction s as [|c s IH]; simpl.
  - destruct (startsWith "" sub) eqn:E.
    + split; [intros _ | reflexivity].
      apply startsWith_spec in E. destruct E as [post E].
      now exists "", post.
    + split; [discriminate|]. intros [pre [post H]].
      destruct pre; simpl in H.
      * assert (startsWith "" sub = true) as E'
          by (apply startsWith_spec; now exists post).
        congruence.
      * discriminate.
  - destruct (startsWith (String c s) sub) eqn:E.
    + split; [intros _ | reflexivity].
      apply startsWith_spec in E. destruct E as [post E].
      now exists "", post.
    + rewrite IH. split.
      * intros [pre [post ->]]. now exists (String c pre), post.
      * intros [pre [post H]]. destruct pre as [|c' pre]; simpl in H.
        -- assert (startsWith (String c s) sub = true) as E'
             by (apply startsWith_spec; now exists post).
           congruence.
        -- injection H as _ ->. now exists pre, post.
Qed.

Lemma toLowerCase_app (a b : string) :
  toLowerCase (a ++ b) = (toLowerCase a ++ toLowerCase b)%string.
Proof. induction a as [|c a IH]; simpl; [reflexivity | now rewrite IH]. Qed.

Lemma toLowerCase_split (s a b : string) :
  toLowerCase s = (a ++ b)%string ->
  exists a' b', s = (a' ++ b')%string /\ toLowerCase a' = a /\ toLowerCase b' = b.
Proof.
  revert s. induction a as [|c a IH]; intros s H; simpl in H.
  - now exists "", s.
  - destruct s as [|d s]; simpl in H; [discriminate|].
    injection H as Hc Hs. destruct (IH _ Hs) as [a' [b' [-> [Ha Hb]]]].
    exists (String d a'), b'. simpl. now rewrite Ha, Hc.
Qed.

(** The test of both hooks decides containment up to case. *)
Lemma includes_lower_spec (text query : string) :
  includes (toLowerCase text) (toLowerCase query) = true
  <-> contains_ignoring_case text query.
Proof.
  rewrite includes_spec. unfold contains_ignoring_case, eq_ignoring_case. split.
  - intros [pre [post H]].
    apply toLowerCase_split in H. destruct H as [pre' [rest [-> [Hpre Hrest]]]].
    apply toLowerCase_split in Hrest. destruct Hrest as [mid [post' [-> [Hmid Hpost]]]].
    now exists pre', mid, post'.
  - intros [pre [mid [post [-> Hmid]]]].
    exists (toLowerCase pre), (toLowerCase post).
    now rewrite !toLowerCase_app, Hmid.
Qed.

Lemma truthy_spec (s : string) : truthy s = true <-> s <> "".
Proof.
  unfold truthy. rewrite negb_true_iff. split.
  - intros H ->. discriminate.
  - intros H. now apply String.eqb_neq.
Qed.

End StringLemmas.

(* ===================================================================== *)
(** ** The fold against the letter-by-letter comparison                   *)
(* ===================================================================== *)

Section LetterLemmas.

Lemma lower_ascii_upper (c : ascii) :
  (65 <= nat_of_ascii c <= 90)%nat ->
  lower_ascii c = ascii_of_nat (nat_of_ascii c + 32).
Proof.
  intros [H1 H2]. unfold lower_ascii.
  apply Nat.leb_le in H1. apply Nat.leb_le in H2. now rewrite H1, H2.
Qed.

Lemma lower_ascii_other (c : ascii) :
  ~ (65 <= nat_of_ascii c <= 90)%nat -> lower_ascii c = c.
Proof.
  intros H. unfold lower_ascii.
  destruct (Nat.leb_spec 65 (nat_of_ascii c)); simpl; [|reflexivity].
  destruct (Nat.leb_spec (nat_of_ascii c) 90); [lia | reflexivity].
Qed.

Lemma nat_of_lower_upper (c : ascii) :
  (65 <= nat_of_ascii c <= 90)%nat ->
  nat_of_ascii (lower_ascii c) = (nat_of_ascii c + 32)%nat.
Proof.
  intros H. rewrite (lower_ascii_upper c H).
  apply nat_ascii_embedding. lia.
Qed.

Lemma nat_of_ascii_inj (a b : ascii) : nat_of_ascii a = nat_of_ascii b -> a = b.
Proof.
  intros H. rewrite <- (ascii_nat_embedding a), <- (ascii_nat_embedding b).
  now rewrite H.
Qed.

Lemma nat_of_lower_other (c : ascii) :
  ~ (65 <= nat_of_ascii c <= 90)%nat ->
  nat_of_ascii (lower_ascii c) = nat_of_ascii c.
Proof. intros H. now rewrite lower_ascii_other. Qed.

(** The fold identifies exactly the characters that are the same up to
    case. *)
Lemma same_letter_fold (a b : ascii) :
  same_letter a b <-> lower_ascii a = lower_ascii b.
Proof.
  unfold same_letter, letter_pair. split.
  - intros [-> | [[Hu Hl] | [Hu Hl]]]; [reflexivity | |];
      apply nat_of_ascii_inj.
    + rewrite nat_of_lower_upper by exact Hu.
      rewrite nat_of_lower_other by lia. lia.
    + rewrite (nat_of_lower_upper b) by exact Hu.
      rewrite nat_of_lower_other by lia. lia.
  - intros H.
    assert (Hn : nat_of_ascii (lower_ascii a) = nat_of_ascii (lower_ascii b))
      by (now rewrite H).
    destruct (Nat.le_gt_cases 65 (nat_of_ascii a)) as [Ha1 | Ha1];
      [destruct (Nat.le_gt_cases (nat_of_ascii a) 90) as [Ha2 | Ha2] |];
      (destruct (Nat.le_gt_cases 65 (nat_of_ascii b)) as [Hb1 | Hb1];
       [destruct (Nat.le_gt_cases (nat_of_ascii b) 90) as [Hb2 | Hb2] |]);
      rewrite ?(nat_of_lower_upper a), ?(nat_of_lower_other a) in Hn by lia;
      rewrite ?(nat_of_lower_upper b), ?(nat_of_lower_other b) in Hn by lia;
      first [ left; apply nat_of_ascii_inj; lia
            | right; left; lia
            | right; right; lia ].
Qed.

Lemma same_text_fold (a b : string) :
  same_text a b <-> eq_ignoring_case a b.
Proof.
  unfold eq_ignoring_case. revert b.
  induction a as [|x a IH]; intros [|y b]; simpl.
  - tauto.
  - split; [contradiction | discriminate].
  - split; [contradiction | discriminate].
  - rewrite same_letter_fold, IH. split.
    + intros [-> ->]. reflexivity.
    + intros H. injection H as H1 H2. now split.
Qed.

Lemma occurs_fold (text query : string) :
  occurs_ignoring_case text query <-> contains_ignoring_case text query.
Proof.
  unfold occurs_ignoring_case, contains_ignoring_case. split.
  - intros [pre [mid [post [H1 H2]]]]. exists pre, mid, post.
    split; [exact H1 | now apply same_text_fold].
  - intros [pre [mid [post [H1 H2]]]]. exists pre, mid, post.
    split; [exact H1 | now apply same_text_fold].
Qed.

(** The test of both hooks decides occurrence up to case. *)
Lemma includes_occurs (text query : string) :
  includes (toLowerCase text) (toLowerCase query) = true
  <-> occurs_ignoring_case text query.
Proof. now rewrite includes_lower_spec, occurs_fold. Qed.

End LetterLemmas.

(* ===================================================================== *)
(** ** Filtering                                                          *)
(* ===================================================================== *)

Lemma filter_users_In (query : string) (data : list RemoteUser) (s : Suggestion) :
  In s (Live.filter_users query data)
  <-> exists user, In user data /\ s = to_suggestion user
                   /\ contains_ignoring_case (user_name user) query.
Proof.
  unfold Live.filter_users. rewrite in_map_iff. split.
  - intros [user [Hs Hin]]. apply filter_In in Hin. destruct Hin as [Hin Hinc].
    exists user. repeat split; auto. now apply includes_lower_spec.
  - intros [user [Hin [Hs Hc]]]. exists user. split; [auto|].
    apply filter_In. split; [assumption|]. now apply includes_lower_spec.
Qed.

Lemma filter_suggestions_In (userInput : string) (all : list Suggestion) (s : Suggestion) :
  In s (Preload.filter_suggestions userInput all)
  <-> In s all /\ contains_ignoring_case (name s) userInput.
Proof.
  unfold Preload.filter_suggestions. rewrite filter_In.
  now rewrite includes_lower_spec.
Qed.



(* ===================================================================== *)
(** ** Array access                                                       *)
(* ===================================================================== *)

Lemma array_get_present {A} (xs : list A) (i : Z) :
  (exists x, array_get xs i = Some x) <-> 0 <= i < array_length xs.
Proof.
  unfold array_get, array_length. destruct (Z.ltb_spec i 0) as [Hneg|Hpos].
  - split; [intros [x H]; discriminate | lia].
  - split.
    + intros [x H]. assert (Hlt : (Z.to_nat i < List.length xs)%nat).
      { apply nth_error_Some. congruence. }
      lia.
    + intros [_ Hlt]. destruct (nth_error xs (Z.to_nat i)) eqn:E.
      * now exists a.
      * apply nth_error_None in E. lia.
Qed.

Lemma array_get_absent {A} (xs : list A) (i : Z) :
  i < 0 \/ array_length xs <= i -> array_get xs i = None.
Proof.
  intros H. destruct (array_get xs i) eqn:E; [|reflexivity].
  assert (0 <= i < array_length xs) by (apply array_get_present; eauto). lia.
Qed.

(* ===================================================================== *)
(** ** Selection                                                          *)
(* ===================================================================== *)

(** C3. Selecting a suggestion, by a click or by Enter on the entry that
    Enter picks, writes the suggestion's name to the input, empties the
    candidate set, hides the list, resets the index to -1 and calls
    [onSelect] once, with that name; this holds in both hooks. *)
Theorem C3_selection (s : Suggestion) :
  (forall st : Live.State,
      Live.handleClick (Some s) st
      = (inr tt,
         {| Live.inputValue := name s; Live.filteredSuggestions := [];
            Live.highlightedIndex := -1; Live.showSuggestions := false;
            Live.loading := Live.loading st; Live.error := None |},
         [OnSelect (name s)]))
  /\
  (forall st : Preload.State,
      Preload.handleClick (Some s) st
      = (inr tt,
         {| Preload.inputValue := name s;
            Preload.allSuggestions := Preload.allSuggestions st;
            Preload.filteredSuggestions := [];
            Preload.highlightedIndex := -1; Preload.showSuggestions := false;
            Preload.loading := Preload.loading st; Preload.error := None |},
         [OnSelect (name s)]))
  /\
  (forall snap st : Live.State,
      array_get (Live.filteredSuggestions snap)
                (if Live.highlightedIndex snap >=? 0
                 then Live.highlightedIndex snap else 0) = Some s ->
      Live.handleKeyDown snap "Enter" st = Live.handleClick (Some s) st)
  /\
  (forall snap st : Preload.State,
      array_get (Preload.filteredSuggestions snap)
                (if Preload.highlightedIndex snap >=? 0
                 then Preload.highlightedIndex snap else 0) = Some s ->
      Preload.handleKeyDown snap "Enter" st = Preload.handleClick (Some s) st).
Proof.
  repeat split.
  - intros snap st H. unfold Live.handleKeyDown. simpl.
    destruct (Live.highlightedIndex snap >=? 0) eqn:Ei.
    + now rewrite H.
    + assert (Hn : 0 <= 0 < array_length (Live.filteredSuggestions snap))
        by (apply array_get_present; eauto).
      destruct (Z.gtb_spec (array_length (Live.filteredSuggestions snap)) 0);
        [now rewrite H | lia].
  - intros snap st H. unfold Preload.handleKeyDown. simpl.
    destruct (Preload.highlightedIndex snap >=? 0) eqn:Ei.
    + now rewrite H.
    + assert (Hn : 0 <= 0 < array_length (Preload.filteredSuggestions snap))
        by (apply array_get_present; eauto).
      destruct (Z.gtb_spec (array_length (Preload.filteredSuggestions snap)) 0);
        [now rewrite H | lia].
Qed.

Lemma C3_selection_witness :
  Live.handleKeyDown Sample.live_two "Enter" Sample.live_two
  = Live.handleClick (Some (to_suggestion Sample.margo)) Sample.live_two.
Proof.
  apply (proj1 (proj2 (proj2 (C3_selection (to_suggestion Sample.margo))))).
  reflexivity.
Defined.

(* ===================================================================== *)
(** ** Keyboard navigation                                                *)
(* ===================================================================== *)

Module LiveKeys.

Lemma live_arrow_down (snap st : Live.State) :
  Live.handleKeyDown snap "ArrowDown" st
  = if Live.highlightedIndex snap <? array_length (Live.filteredSuggestions snap) - 1
    then Live.setHighlightedIndex (Live.highlightedIndex snap + 1) st
    else ret tt st.
Proof.
  unfold Live.handleKeyDown. simpl.
  now destruct (Live.highlightedIndex snap
                <? array_length (Live.filteredSuggestions snap) - 1).
Qed.

Lemma live_arrow_up (snap st : Live.State) :
  Live.handleKeyDown snap "ArrowUp" st
  = if Live.highlightedIndex snap >? 0
    then Live.setHighlightedIndex (Live.highlightedIndex snap - 1) st
    else ret tt st.
Proof.
  unfold Live.handleKeyDown. simpl.
  now destruct (Live.highlightedIndex snap >? 0).
Qed.

Lemma live_enter (snap st : Live.State) :
  Live.handleKeyDown snap "Enter" st
  = if Live.highlightedIndex snap >=? 0
    then Live.handleClick
           (array_get (Live.filteredSuggestions snap) (Live.highlightedIndex snap)) st
    else if array_length (Live.filteredSuggestions snap) >? 0
    then Live.handleClick (array_get (Live.filteredSuggestions snap) 0) st
    else Live.setShowSuggestions false st.
Proof.
  unfold Live.handleKeyDown. simpl.
  now destruct (Live.highlightedIndex snap >=? 0),
    (array_length (Live.filteredSuggestions snap) >? 0).
Qed.

End LiveKeys.

Module PreloadKeys.

Lemma preload_arrow_down (snap st : Preload.State) :
  Preload.handleKeyDown snap "ArrowDown" st
  = if Preload.highlightedIndex snap
       <? array_length (Preload.filteredSuggestions snap) - 1
    then Preload.setHighlightedIndex (Preload.highlightedIndex snap + 1) st
    else ret tt st.
Proof.
  unfold Preload.handleKeyDown. simpl.
  now destruct (Preload.highlightedIndex snap
                <? array_length (Preload.filteredSuggestions snap) - 1).
Qed.

Lemma preload_arrow_up (snap st : Preload.State) :
  Preload.handleKeyDown snap "ArrowUp" st
  = if Preload.highlightedIndex snap >? 0
    then Preload.setHighlightedIndex (Preload.highlightedIndex snap - 1) st
    else ret tt st.
Proof.
  unfold Preload.handleKeyDown. simpl.
  now destruct (Preload.highlightedIndex snap >? 0).
Qed.

Lemma preload_enter (snap st : Preload.State) :
  Preload.handleKeyDown snap "Enter" st
  = if Preload.highlightedIndex snap >=? 0
    then Preload.handleClick
           (array_get (Preload.filteredSuggestions snap)
                      (Preload.highlightedIndex snap)) st
    else if array_length (Preload.filteredSuggestions snap) >? 0
    then Preload.handleClick (array_get (Preload.filteredSuggestions snap) 0) st
    else Preload.setShowSuggestions false st.
Proof.
  unfold Preload.handleKeyDown. simpl.
  now destruct (Preload.highlightedIndex snap >=? 0),
    (array_length (Preload.filteredSuggestions snap) >? 0).
Qed.

End PreloadKeys.

(** Splits a boolean comparison on integers into its two arithmetic cases. *)
Ltac split_cmp :=
  match goal with
  | |- context [?a <? ?b] => destruct (Z.ltb_spec a b)
  | |- context [?a >=? ?b] => destruct (Z.geb_spec a b)
  | |- context [?a >? ?b] => destruct (Z.gtb_spec a b)
  end.

(** X20. The key handler on an index within the list.  With index [i] and
    [n] entries, in both hooks: ArrowDown writes [i + 1] when [i < n - 1]
    and writes nothing otherwise; ArrowUp writes [i - 1] when [i > 0] and
    writes nothing otherwise; Enter selects the entry at [i] when
    [0 <= i < n], the first entry when [i < 0] and [n > 0], and hides the
    list when [i < 0] and [n = 0]. *)
Theorem X20_keyboard_step_in_range :
  (forall snap st : Live.State,
      let i := Live.highlightedIndex snap in
      let n := array_length (Live.filteredSuggestions snap) in
      (i < n - 1 ->
       Live.handleKeyDown snap "ArrowDown" st = Live.setHighlightedIndex (i + 1) st)
      /\ (~ i < n - 1 -> Live.handleKeyDown snap "ArrowDown" st = (inr tt, st, []))
      /\ (i > 0 ->
          Live.handleKeyDown snap "ArrowUp" st = Live.setHighlightedIndex (i - 1) st)
      /\ (~ i > 0 -> Live.handleKeyDown snap "ArrowUp" st = (inr tt, st, []))
      /\ (0 <= i < n ->
          exists s, array_get (Live.filteredSuggestions snap) i = Some s
                    /\ Live.handleKeyDown snap "Enter" st = Live.handleClick (Some s) st)
      /\ (i < 0 -> n > 0 ->
          exists s, array_get (Live.filteredSuggestions snap) 0 = Some s
                    /\ Live.handleKeyDown snap "Enter" st = Live.handleClick (Some s) st)
      /\ (i < 0 -> n = 0 ->
          Live.handleKeyDown snap "Enter" st = Live.setShowSuggestions false st))
  /\
  (forall snap st : Preload.State,
      let i := Preload.highlightedIndex snap in
      let n := array_length (Preload.filteredSuggestions snap) in
      (i < n - 1 ->
       Preload.handleKeyDown snap "ArrowDown" st = Preload.setHighlightedIndex (i + 1) st)
      /\ (~ i < n - 1 -> Preload.handleKeyDown snap "ArrowDown" st = (inr tt, st, []))
      /\ (i > 0 ->
          Preload.handleKeyDown snap "ArrowUp" st = Preload.setHighlightedIndex (i - 1) st)
      /\ (~ i > 0 -> Preload.handleKeyDown snap "ArrowUp" st = (inr tt, st, []))
      /\ (0 <= i < n ->
          exists s, array_get (Preload.filteredSuggestions snap) i = Some s
                    /\ Preload.handleKeyDown snap "Enter" st
                       = Preload.handleClick (Some s) st)
      /\ (i < 0 -> n > 0 ->
          exists s, array_get (Preload.filteredSuggestions snap) 0 = Some s
                    /\ Preload.handleKeyDown snap "Enter" st
                       = Preload.handleClick (Some s) st)
      /\ (i < 0 -> n = 0 ->
          Preload.handleKeyDown snap "Enter" st = Preload.setShowSuggestions false st)).
Proof.
  split; intros snap st i n; subst i n.
  - rewrite LiveKeys.live_arrow_down, LiveKeys.live_arrow_up, LiveKeys.live_enter.
    split_conj; intros.
    + split_cmp; [reflexivity | lia].
    + split_cmp; [lia | reflexivity].
    + split_cmp; [reflexivity | lia].
    + split_cmp; [lia | reflexivity].
    + destruct (proj2 (array_get_present (Live.filteredSuggestions snap)
                         (Live.highlightedIndex snap)) H) as [s Hs].
      exists s. split; [exact Hs|]. split_cmp; [now rewrite Hs | lia].
    + destruct (proj2 (array_get_present (Live.filteredSuggestions snap) 0)
                  ltac:(lia)) as [s Hs].
      exists s. split; [exact Hs|].
      split_cmp; [lia|]. split_cmp; [now rewrite Hs | lia].
    + split_cmp; [lia|]. split_cmp; [lia | reflexivity].
  - rewrite PreloadKeys.preload_arrow_down, PreloadKeys.preload_arrow_up, PreloadKeys.preload_enter.
    split_conj; intros.
    + split_cmp; [reflexivity | lia].
    + split_cmp; [lia | reflexivity].
    + split_cmp; [reflexivity | lia].
    + split_cmp; [lia | reflexivity].
    + destruct (proj2 (array_get_present (Preload.filteredSuggestions snap)
                         (Preload.highlightedIndex snap)) H) as [s Hs].
      exists s. split; [exact Hs|]. split_cmp; [now rewrite Hs | lia].
    + destruct (proj2 (array_get_present (Preload.filteredSuggestions snap) 0)
                  ltac:(lia)) as [s Hs].
      exists s. split; [exact Hs|].
      split_cmp; [lia|]. split_cmp; [now rewrite Hs | lia].
    + split_cmp; [lia|]. split_cmp; [lia | reflexivity].
Qed.

Lemma X20_keyboard_step_in_range_witness :
  Live.highlightedIndex Sample.live_two
  < array_length (Live.filteredSuggestions Sample.live_two) - 1
  /\ Live.handleKeyDown Sample.live_two "ArrowDown" Sample.live_two
     = Live.setHighlightedIndex (-1 + 1) Sample.live_two.
Proof.
  assert (H : Live.highlightedIndex Sample.live_two
              < array_length (Live.filteredSuggestions Sample.live_two) - 1)
    by (vm_compute; reflexivity).
  split; [exact H|].
  exact (proj1 (proj1 X20_keyboard_step_in_range Sample.live_two Sample.live_two) H).
Defined.

(** C4, the code at the failing input.  In the preload hook, after the
    user highlights the first entry and types on until nothing matches,
    there are [n = 0] entries and the index is [0]; Enter then neither hides
    the list nor selects an entry: the handler throws before it writes
    anything, and the list stays visible. *)
Theorem C4_enter_on_empty_list_throws :
  exists w tr,
    Preload.lifetime "" Sample.preload_none_left = Some (w, tr)
    /\ array_length (Preload.filteredSuggestions (Preload.cells w)) = 0
    /\ Preload.highlightedIndex (Preload.cells w) = 0
    /\ Preload.showSuggestions (Preload.cells w) = true
    /\ Preload.handleKeyDown (Preload.cells w) "Enter" (Preload.cells w)
       = (inl undefined_name, Preload.cells w, [])
    /\ ~ (Preload.handleKeyDown (Preload.cells w) "Enter" (Preload.cells w)
          = Preload.setShowSuggestions false (Preload.cells w)).
Proof.
  eexists. eexists. split; [vm_compute; reflexivity|].
  split_conj; try reflexivity. vm_compute. discriminate.
Qed.

(** C10. With an index [i >= 0], Enter passes [filteredSuggestions[i]] to
    [handleClick]; that element is present exactly when [i] is below the
    length of the list, and when it is not, the selection reads [name] of
    an absent element: it throws, with nothing written and no callback
    made.  This holds in both hooks. *)
Theorem C10_enter_indexes_unchecked :
  (forall snap st : Live.State,
      0 <= Live.highlightedIndex snap ->
      Live.handleKeyDown snap "Enter" st
      = Live.handleClick
          (array_get (Live.filteredSuggestions snap) (Live.highlightedIndex snap)) st
      /\ ((exists s, array_get (Live.filteredSuggestions snap)
                               (Live.highlightedIndex snap) = Some s)
          <-> Live.highlightedIndex snap < array_length (Live.filteredSuggestions snap))
      /\ (array_length (Live.filteredSuggestions snap) <= Live.highlightedIndex snap ->
          Live.handleKeyDown snap "Enter" st = (inl undefined_name, st, [])))
  /\
  (forall snap st : Preload.State,
      0 <= Preload.highlightedIndex snap ->
      Preload.handleKeyDown snap "Enter" st
      = Preload.handleClick
          (array_get (Preload.filteredSuggestions snap)
                     (Preload.highlightedIndex snap)) st
      /\ ((exists s, array_get (Preload.filteredSuggestions snap)
                               (Preload.highlightedIndex snap) = Some s)
          <-> Preload.highlightedIndex snap
              < array_length (Preload.filteredSuggestions snap))
      /\ (array_length (Preload.filteredSuggestions snap)
          <= Preload.highlightedIndex snap ->
          Preload.handleKeyDown snap "Enter" st = (inl undefined_name, st, []))).
Proof.
  split; intros snap st Hi.
  - assert (He : Live.handleKeyDown snap "Enter" st
                 = Live.handleClick
                     (array_get (Live.filteredSuggestions snap)
                                (Live.highlightedIndex snap)) st).
    { rewrite LiveKeys.live_enter. split_cmp; [reflexivity | lia]. }
    split_conj.
    + exact He.
    + rewrite array_get_present. lia.
    + intros Hn. rewrite He, array_get_absent by lia. reflexivity.
  - assert (He : Preload.handleKeyDown snap "Enter" st
                 = Preload.handleClick
                     (array_get (Preload.filteredSuggestions snap)
                                (Preload.highlightedIndex snap)) st).
    { rewrite PreloadKeys.preload_enter. split_cmp; [reflexivity | lia]. }
    split_conj.
    + exact He.
    + rewrite array_get_present. lia.
    + intros Hn. rewrite He, array_get_absent by lia. reflexivity.
Qed.

Lemma C10_enter_indexes_unchecked_witness :
  0 <= 2 /\ array_length [to_suggestion Sample.margo] <= 2 /\
  forall st : Live.State,
    Live.handleKeyDown
      {| Live.inputValue := "marg";
         Live.filteredSuggestions := [to_suggestion Sample.margo];
         Live.highlightedIndex := 2; Live.showSuggestions := true;
         Live.loading := false; Live.error := None |} "Enter" st
    = (inl undefined_name, st, []).
Proof.
  assert (H0 : 0 <= 2) by lia.
  assert (H1 : array_length [to_suggestion Sample.margo] <= 2)
    by (vm_compute; discriminate).
  split; [exact H0 | split; [exact H1 |]].
  intros st.
  exact (proj2 (proj2 (proj1 C10_enter_indexes_unchecked
                         {| Live.inputValue := "marg";
                            Live.filteredSuggestions := [to_suggestion Sample.margo];
                            Live.highlightedIndex := 2; Live.showSuggestions := true;
                            Live.loading := false; Live.error := None |} st H0)) H1).
Defined.

(* ===================================================================== *)
(** ** The index after the candidate set is replaced                      *)
(* ===================================================================== *)

(** C2, the code at the failing input.  In both hooks the user moves to
    the second of two entries and types on until one entry matches: the
    candidate set is replaced by a list of length 1 and the index is still
    1, neither reset to -1 nor within [-1, 0]. *)
Theorem C2_index_survives_replacement :
  (exists w tr,
      Preload.lifetime "" Sample.preload_one_left = Some (w, tr)
      /\ Preload.filteredSuggestions (Preload.cells w) = [to_suggestion Sample.margo]
      /\ Preload.highlightedIndex (Preload.cells w) = 1
      /\ ~ (Preload.highlightedIndex (Preload.cells w)
            <= array_length (Preload.filteredSuggestions (Preload.cells w)) - 1))
  /\
  (exists w tr,
      Live.run (Live.mount "") Sample.live_one_left = Some (w, tr)
      /\ Live.filteredSuggestions (Live.cells w) = [to_suggestion Sample.margo]
      /\ Live.highlightedIndex (Live.cells w) = 1
      /\ ~ (Live.highlightedIndex (Live.cells w)
            <= array_length (Live.filteredSuggestions (Live.cells w)) - 1)).
Proof.
  split; eexists; eexists; (split; [vm_compute; reflexivity|]);
    split_conj; try reflexivity; vm_compute; intros H; apply H; reflexivity.
Qed.

(* ===================================================================== *)
(** ** Visibility and the input                                           *)
(* ===================================================================== *)

(** C9, the code at the failing input.  In the live-query hook the user
    types a letter and deletes it before the request for the letter is
    answered; when the answer arrives the list is marked visible although
    the input is empty. *)
Theorem C9_late_answer_shows_on_empty_input :
  exists w tr,
    Live.run (Live.mount "") Sample.live_late_answer = Some (w, tr)
    /\ Live.inputValue (Live.cells w) = ""
    /\ Live.showSuggestions (Live.cells w) = true
    /\ Live.filteredSuggestions (Live.cells w)
       = [to_suggestion Sample.margo; to_suggestion Sample.mark].
Proof.
  eexists. eexists. split; [vm_compute; reflexivity|].
  split_conj; reflexivity.
Qed.

(* ===================================================================== *)
(** ** The preload hook while its request is unanswered                   *)
(* ===================================================================== *)

Module PreloadPending.

(** Every event keeps both lists empty for as long as the request of the
    mount is unanswered. *)
Lemma step_pending (w w' : Preload.World) (ev : Preload.Event) (tr : list Effect) :
  (Preload.pending w = true ->
   Preload.allSuggestions (Preload.cells w) = []
   /\ Preload.filteredSuggestions (Preload.cells w) = []) ->
  Preload.step w ev = Some (w', tr) ->
  Preload.pending w' = true ->
  Preload.allSuggestions (Preload.cells w') = []
  /\ Preload.filteredSuggestions (Preload.cells w') = [].
Proof.
  intros Hinv. destruct w as [[input all filtered index show load err] pend].
  simpl in Hinv.
  destruct ev as [userInput | key | suggestion | inside | outcome];
    unfold Preload.step; cbv beta iota.
  - unfold Preload.run_handler, Preload.handleChange, bind. simpl.
    destruct (truthy userInput); simpl; intros E; injection E as <- _; simpl;
      intros Hp; destruct (Hinv Hp) as [-> _]; now split.
  - unfold Preload.run_handler, Preload.handleKeyDown. simpl.
    destruct (String.eqb key "ArrowDown" && _)%bool;
      [simpl; intros E; injection E as <- _; exact Hinv|].
    destruct (String.eqb key "ArrowUp" && _)%bool;
      [simpl; intros E; injection E as <- _; exact Hinv|].
    destruct (String.eqb key "Enter");
      [|simpl; intros E; injection E as <- _; exact Hinv].
    destruct (index >=? 0).
    + destruct (array_get filtered index); simpl;
        intros E; injection E as <- _; simpl; [|exact Hinv].
      intros Hp. destruct (Hinv Hp) as [-> _]. now split.
    + destruct (array_length filtered >? 0).
      * destruct (array_get filtered 0); simpl;
          intros E; injection E as <- _; simpl; [|exact Hinv].
        intros Hp. destruct (Hinv Hp) as [-> _]. now split.
      * simpl. intros E; injection E as <- _; exact Hinv.
  - destruct (existsb _ _); [|discriminate]. simpl.
    intros E; injection E as <- _; simpl.
    intros Hp. destruct (Hinv Hp) as [-> _]. now split.
  - destruct (Preload.renderSuggestions _).
    + destruct inside; simpl; intros E; injection E as <- _; exact Hinv.
    + destruct inside; [discriminate|]. simpl.
      intros E; injection E as <- _; exact Hinv.
  - simpl. destruct pend; [|discriminate].
    destruct (Preload.run_handler _ _) as [s' tr'].
    intros E; injection E as <- _. discriminate.
Qed.

Lemma run_pending (evs : list Preload.Event) (w w' : Preload.World)
      (tr : list Effect) :
  (Preload.pending w = true ->
   Preload.allSuggestions (Preload.cells w) = []
   /\ Preload.filteredSuggestions (Preload.cells w) = []) ->
  Preload.run w evs = Some (w', tr) ->
  Preload.pending w' = true ->
  Preload.allSuggestions (Preload.cells w') = []
  /\ Preload.filteredSuggestions (Preload.cells w') = [].
Proof.
  revert w tr. induction evs as [|ev evs IH]; intros w tr Hinv; simpl.
  - intros E. injection E as <- _. exact Hinv.
  - destruct (Preload.step w ev) as [[w1 t1]|] eqn:Es; [|discriminate].
    destruct (Preload.run w1 evs) as [[w2 t2]|] eqn:Er; [|discriminate].
    intros E. injection E as <- _.
    exact (IH _ _ (step_pending _ _ _ _ Hinv Es) Er).
Qed.

(** In every world the preload hook can be in with its request unanswered,
    the cache and the filtered list are empty. *)
Lemma empty_while_pending (query : string) (w : Preload.World) :
  Preload.reachable query w ->
  Preload.pending w = true ->
  Preload.allSuggestions (Preload.cells w) = []
  /\ Preload.filteredSuggestions (Preload.cells w) = [].
Proof.
  intros [evs [tr Hlife]].
  unfold Preload.lifetime, Preload.mount in Hlife. simpl in Hlife.
  destruct (Preload.run _ evs) as [[w1 t1]|] eqn:Er; [|discriminate].
  injection Hlife as <- _.
  refine (run_pending _ _ _ _ _ Er). simpl. now split.
Qed.

End PreloadPending.

(* ===================================================================== *)
(** ** Fetch failures                                                     *)
(* ===================================================================== *)

(** C5. In both hooks a request that fails, by a network-level exception
    or by a status outside 200-299, is caught where it was made: nothing is
    thrown further, the message built from the error is recorded, the
    candidate set is emptied and the loading flag is cleared; and whatever
    the outcome, the function ends normally with the loading flag cleared.
    The preload hook empties its cache; its filtered list is empty by then,
    as it is for as long as the request is unanswered. *)
Theorem C5_fetch_failure_contained (status : N) (Hbad : response_ok status = false) :
  (forall (query : string) (e : Exn) (st : Live.State),
      Live.fetchFilteredSuggestions_settle query (Rejected e) st
      = (inr tt,
         {| Live.inputValue := Live.inputValue st; Live.filteredSuggestions := [];
            Live.highlightedIndex := Live.highlightedIndex st;
            Live.showSuggestions := Live.showSuggestions st;
            Live.loading := false;
            Live.error := Some (fetch_error_message e) |}, []))
  /\
  (forall (query : string) (body : Exn + list RemoteUser) (st : Live.State),
      Live.fetchFilteredSuggestions_settle query (Resolved status body) st
      = (inr tt,
         {| Live.inputValue := Live.inputValue st; Live.filteredSuggestions := [];
            Live.highlightedIndex := Live.highlightedIndex st;
            Live.showSuggestions := Live.showSuggestions st;
            Live.loading := false;
            Live.error :=
              Some (fetch_error_message
                      (Error ("HTTP error! status: " ++ of_N status)%string)) |}, []))
  /\
  (forall (query : string) (outcome : FetchOutcome) (st : Live.State),
      exists st', Live.fetchFilteredSuggestions_settle query outcome st = (inr tt, st', [])
                  /\ Live.loading st' = false)
  /\
  (forall (e : Exn) (st : Preload.State),
      Preload.fetchAllSuggestions_settle (Rejected e) st
      = (inr tt,
         {| Preload.inputValue := Preload.inputValue st; Preload.allSuggestions := [];
            Preload.filteredSuggestions := Preload.filteredSuggestions st;
            Preload.highlightedIndex := Preload.highlightedIndex st;
            Preload.showSuggestions := Preload.showSuggestions st;
            Preload.loading := false;
            Preload.error := Some (fetch_error_message e) |}, []))
  /\
  (forall (body : Exn + list RemoteUser) (st : Preload.State),
      Preload.fetchAllSuggestions_settle (Resolved status body) st
      = (inr tt,
         {| Preload.inputValue := Preload.inputValue st; Preload.allSuggestions := [];
            Preload.filteredSuggestions := Preload.filteredSuggestions st;
            Preload.highlightedIndex := Preload.highlightedIndex st;
            Preload.showSuggestions := Preload.showSuggestions st;
            Preload.loading := false;
            Preload.error :=
              Some (fetch_error_message
                      (Error ("HTTP error! status: " ++ of_N status)%string)) |}, []))
  /\
  (forall (outcome : FetchOutcome) (st : Preload.State),
      exists st', Preload.fetchAllSuggestions_settle outcome st = (inr tt, st', [])
                  /\ Preload.loading st' = false)
  /\
  (forall (query : string) (w : Preload.World),
      Preload.reachable query w -> Preload.pending w = true ->
      Preload.filteredSuggestions (Preload.cells w) = []).
Proof.
  split_conj; [| | | | | | intros query w Hr Hp;
                           exact (proj2 (PreloadPending.empty_while_pending
                                           query w Hr Hp))].
  - reflexivity.
  - intros query body st.
    unfold Live.fetchFilteredSuggestions_settle, try_catch_finally, await_json, bind.
    rewrite Hbad. reflexivity.
  - intros query [e | status' [e | data]] st;
      unfold Live.fetchFilteredSuggestions_settle, try_catch_finally, await_json, bind;
      try destruct (response_ok status'); simpl;
      eexists; split; reflexivity.
  - reflexivity.
  - intros body st.
    unfold Preload.fetchAllSuggestions_settle, try_catch_finally, await_json, bind.
    rewrite Hbad. reflexivity.
  - intros [e | status' [e | data]] st;
      unfold Preload.fetchAllSuggestions_settle, try_catch_finally, await_json, bind;
      try destruct (response_ok status'); simpl;
      eexists; split; reflexivity.
Qed.

Lemma C5_fetch_failure_contained_witness :
  response_ok 404 = false /\
  Live.fetchFilteredSuggestions_settle "mar" (Resolved 404 (inr Sample.listing))
    Sample.live_two
  = (inr tt,
     {| Live.inputValue := "mar"; Live.filteredSuggestions := [];
        Live.highlightedIndex := -1; Live.showSuggestions := true;
        Live.loading := false;
        Live.error :=
          Some "Error fetching suggestions - Error: HTTP error! status: 404, please try again later" |},
     []).
Proof.
  assert (H : response_ok 404 = false) by reflexivity.
  split; [exact H|].
  exact (proj1 (proj2 (C5_fetch_failure_contained 404%N H))
               "mar" (inr Sample.listing) Sample.live_two).
Defined.

(* ===================================================================== *)
(** ** Network calls of the preload hook                                  *)
(* ===================================================================== *)

Create HintDb quiet_db.

Section Quiet.
Context {S : Type}.

Lemma net_calls_app (t1 t2 : list Effect) :
  net_calls (t1 ++ t2) = (net_calls t1 + net_calls t2)%nat.
Proof. unfold net_calls. now rewrite filter_app, length_app. Qed.

Lemma quiet_ret {A} (a : A) : quiet (ret (S := S) a).
Proof. intros s. reflexivity. Qed.

Lemma quiet_throw {A} (e : Exn) : quiet (throw (S := S) (A := A) e).
Proof. intros s. reflexivity. Qed.

Lemma quiet_modify (f : S -> S) : quiet (modify f).
Proof. intros s. reflexivity. Qed.

Lemma quiet_onSelect (value : string) : quiet (emit (S := S) (OnSelect value)).
Proof. intros s. reflexivity. Qed.

Lemma quiet_bind {A B} (m : M S A) (f : A -> M S B) :
  quiet m -> (forall a, quiet (f a)) -> quiet (bind m f).
Proof.
  intros Hm Hf s. unfold bind. specialize (Hm s).
  destruct (m s) as [[[e | a] s1] t1]; simpl in *; [exact Hm|].
  specialize (Hf a s1). destruct (f a s1) as [[r s2] t2]; simpl in *.
  rewrite net_calls_app. lia.
Qed.

Lemma quiet_try_catch_finally (body : M S unit) (handler : Exn -> M S unit)
      (final : M S unit) :
  quiet body -> (forall e, quiet (handler e)) -> quiet final ->
  quiet (try_catch_finally body handler final).
Proof.
  intros Hb Hh Hf s. unfold try_catch_finally. specialize (Hb s).
  destruct (body s) as [[[e | a] s1] t1]; simpl in *.
  - specialize (Hh e s1). destruct (handler e s1) as [[r' s2] t2]; simpl in *.
    specialize (Hf s2). destruct (final s2) as [[[e' | u] s3] t3]; simpl in *;
      rewrite !net_calls_app; lia.
  - specialize (Hf s1). destruct (final s1) as [[[e' | u] s3] t3]; simpl in *;
      rewrite !net_calls_app; simpl; lia.
Qed.

Lemma quiet_await_json (outcome : FetchOutcome) : quiet (await_json (S := S) outcome).
Proof.
  destruct outcome as [e | status [e | data]]; simpl;
    try destruct (response_ok status); simpl; intros s; reflexivity.
Qed.

Lemma quiet_if {A} (b : bool) (m1 m2 : M S A) :
  quiet m1 -> quiet m2 -> quiet (if b then m1 else m2).
Proof. now destruct b. Qed.

End Quiet.

#[local] Hint Resolve quiet_ret quiet_throw quiet_modify quiet_onSelect
  quiet_await_json : quiet_db.
#[local] Hint Extern 2 (quiet (bind _ _)) => apply quiet_bind; [|intro] : quiet_db.
#[local] Hint Extern 2 (quiet (try_catch_finally _ _ _)) =>
  apply quiet_try_catch_finally; [|intro|] : quiet_db.
#[local] Hint Extern 2 (quiet (if _ then _ else _)) => apply quiet_if : quiet_db.

Module PreloadQuiet.

Lemma quiet_handleClick (suggestion : option Suggestion) :
  quiet (Preload.handleClick suggestion).
Proof.
  destruct suggestion; unfold Preload.handleClick, Preload.setInputValue,
    Preload.setFilteredSuggestions, Preload.setShowSuggestions,
    Preload.setHighlightedIndex, Preload.setError; auto 12 with quiet_db.
Qed.

Lemma quiet_handleChange (snap : Preload.State) (userInput : string) :
  quiet (Preload.handleChange snap userInput).
Proof.
  unfold Preload.handleChange, Preload.setInputValue,
    Preload.setFilteredSuggestions, Preload.setShowSuggestions;
    auto 12 with quiet_db.
Qed.

Lemma quiet_handleKeyDown (snap : Preload.State) (key : string) :
  quiet (Preload.handleKeyDown snap key).
Proof.
  pose proof quiet_handleClick.
  unfold Preload.handleKeyDown, Preload.setHighlightedIndex,
    Preload.setShowSuggestions; auto 12 with quiet_db.
Qed.

Lemma quiet_handleClickOutside (ref_contains_target : option bool) :
  quiet (Preload.handleClickOutside ref_contains_target).
Proof.
  unfold Preload.handleClickOutside, Preload.setShowSuggestions;
    auto with quiet_db.
Qed.

Lemma quiet_fetchAllSuggestions_settle (outcome : FetchOutcome) :
  quiet (Preload.fetchAllSuggestions_settle outcome).
Proof.
  unfold Preload.fetchAllSuggestions_settle, Preload.setAllSuggestions,
    Preload.setError, Preload.setLoading; auto 12 with quiet_db.
Qed.

Lemma quiet_run_handler (m : M Preload.State unit) (s : Preload.State) :
  quiet m -> net_calls (snd (Preload.run_handler m s)) = 0%nat.
Proof.
  intros Hm. unfold Preload.run_handler. specialize (Hm s).
  destruct (m s) as [[[e | u] s'] tr]; cbn [snd] in *; [|exact Hm].
  rewrite net_calls_app, Hm. reflexivity.
Qed.

(** Closes a case of [step] whose handler is quiet by [H]. *)
Ltac by_quiet H :=
  match goal with
  | |- context [Preload.run_handler ?m ?s] =>
      let Hq := fresh "Hq" in
      let E := fresh "E" in
      pose proof (quiet_run_handler m s H) as Hq;
      destruct (Preload.run_handler m s) as [? ?];
      intros E; injection E as _ <-; exact Hq
  end.

(** No event after the mount makes a network call. *)
Lemma quiet_step (w w' : Preload.World) (ev : Preload.Event) (tr : list Effect) :
  Preload.step w ev = Some (w', tr) -> net_calls tr = 0%nat.
Proof.
  destruct ev as [userInput | key | suggestion | inside | outcome];
    unfold Preload.step; cbv beta iota.
  - by_quiet (quiet_handleChange (Preload.cells w) userInput).
  - by_quiet (quiet_handleKeyDown (Preload.cells w) key).
  - destruct (existsb _ _); [|discriminate].
    by_quiet (quiet_handleClick (Some suggestion)).
  - destruct (Preload.renderSuggestions (Preload.cells w)).
    + by_quiet (quiet_handleClickOutside (Some inside)).
    + destruct inside; [discriminate|].
      by_quiet (quiet_handleClickOutside None).
  - destruct (Preload.pending w); [|discriminate].
    by_quiet (quiet_fetchAllSuggestions_settle outcome).
Qed.

Lemma quiet_run (evs : list Preload.Event) (w w' : Preload.World) (tr : list Effect) :
  Preload.run w evs = Some (w', tr) -> net_calls tr = 0%nat.
Proof.
  revert w tr. induction evs as [|ev evs IH]; intros w tr; simpl.
  - intros E. injection E as _ <-. reflexivity.
  - destruct (Preload.step w ev) as [[w1 t1]|] eqn:Es; [|discriminate].
    destruct (Preload.run w1 evs) as [[w2 t2]|] eqn:Er; [|discriminate].
    intros E. injection E as Hw <-. subst w2.
    rewrite net_calls_app, (quiet_step _ _ _ _ Es), (IH _ _ Er). reflexivity.
Qed.

End PreloadQuiet.

(** C6. Across the life of a mounted preload hook, whatever the events,
    exactly one network call is made, the one of the mount; [handleChange]
    calls nothing, ends normally and only stores the input, the visibility
    and a part of the cache it was rendered with, and on ASCII strings that
    part holds exactly the cached suggestions whose name holds the input up
    to case, read letter by letter. *)
Theorem C6_preload_one_network_call
  (query : string) (evs : list Preload.Event) (w : Preload.World) (tr : list Effect)
  (Hlife : Preload.lifetime query evs = Some (w, tr)) :
  net_calls tr = 1%nat
  /\ (exists tr', tr = NetCall Preload.url :: tr' /\ net_calls tr' = 0%nat)
  /\ (forall (snap st : Preload.State) (userInput : string),
         exists st',
           Preload.handleChange snap userInput st = (inr tt, st', [])
           /\ Preload.inputValue st' = userInput
           /\ Preload.showSuggestions st' = truthy userInput
           /\ Preload.allSuggestions st' = Preload.allSuggestions st
           /\ incl (Preload.filteredSuggestions st') (Preload.allSuggestions snap)
           /\ Preload.highlightedIndex st' = Preload.highlightedIndex st
           /\ Preload.loading st' = Preload.loading st
           /\ Preload.error st' = Preload.error st)
  /\ (forall (snap : Preload.State) (userInput : string),
         userInput <> "" -> is_ascii userInput = true ->
         ascii_names (Preload.allSuggestions snap) ->
         forall s : Suggestion,
           In s (Preload.filteredSuggestions
                   (fst (Preload.run_handler
                           (Preload.handleChange snap userInput) snap)))
           <-> In s (Preload.allSuggestions snap)
               /\ occurs_ignoring_case (name s) userInput).
Proof.
  unfold Preload.lifetime, Preload.mount in Hlife. simpl in Hlife.
  destruct (Preload.run _ evs) as [[w1 t1]|] eqn:Er; [|discriminate].
  injection Hlife as _ <-. apply PreloadQuiet.quiet_run in Er.
  split_conj.
  - change (net_calls (NetCall Preload.url :: t1) = 1%nat).
    unfold net_calls in *. simpl. now rewrite Er.
  - now exists t1.
  - intros snap st userInput. unfold Preload.handleChange, bind. simpl.
    destruct (truthy userInput); simpl; eexists; split_conj;
      try reflexivity.
    + intros s Hs. now apply filter_suggestions_In in Hs.
    + intros s [].
  - intros snap userInput Hne _ _ s.
    unfold Preload.run_handler, Preload.handleChange, bind.
    apply truthy_spec in Hne. rewrite Hne. simpl.
    rewrite filter_suggestions_In. now rewrite occurs_fold.
Qed.

Lemma C6_preload_one_network_call_witness :
  exists w tr,
    Preload.lifetime "" Sample.preload_one_left = Some (w, tr)
    /\ net_calls tr = 1%nat.
Proof.
  assert (H : Preload.lifetime "" Sample.preload_one_left
              = Some (fst (match Preload.lifetime "" Sample.preload_one_left with
                           | Some p => p
                           | None => (fst (Preload.mount ""), [])
                           end),
                      snd (match Preload.lifetime "" Sample.preload_one_left with
                           | Some p => p
                           | None => (fst (Preload.mount ""), [])
                           end)))
    by (vm_compute; reflexivity).
  eexists. eexists. split; [exact H|].
  exact (proj1 (C6_preload_one_network_call "" Sample.preload_one_left _ _ H)).
Defined.

(* ===================================================================== *)
(** ** Input changes of the live-query hook                               *)
(* ===================================================================== *)

(** C7. On an input change of the live-query hook, with the handler run
    from the cells it was rendered with: when the new value differs from
    the previous one and is not empty, one request for it is made (and the
    error is cleared and the loading flag set); when it differs and is
    empty, no request is made and the candidate set is emptied, the list
    hidden and the error cleared; when it does not differ, nothing is
    written and nothing is called.  So a request is made exactly when the
    value differs and is not empty. *)
Theorem C7_live_change (st : Live.State) (userInput : string) :
  (Live.inputValue st <> userInput -> userInput <> "" ->
   Live.handleChange st userInput st
   = (inr tt,
      {| Live.inputValue := userInput;
         Live.filteredSuggestions := Live.filteredSuggestions st;
         Live.highlightedIndex := Live.highlightedIndex st;
         Live.showSuggestions := Live.showSuggestions st;
         Live.loading := true; Live.error := None |},
      [NetCall (Live.url userInput)]))
  /\
  (Live.inputValue st <> userInput -> userInput = "" ->
   Live.handleChange st userInput st
   = (inr tt,
      {| Live.inputValue := ""; Live.filteredSuggestions := [];
         Live.highlightedIndex := Live.highlightedIndex st;
         Live.showSuggestions := false;
         Live.loading := Live.loading st; Live.error := None |},
      []))
  /\
  (Live.inputValue st = userInput ->
   Live.handleChange st userInput st = (inr tt, st, []))
  /\
  (net_calls (snd (Live.handleChange st userInput st)) = 1%nat
   <-> Live.inputValue st <> userInput /\ userInput <> "")
  /\
  (~ (Live.inputValue st <> userInput /\ userInput <> "") ->
   net_calls (snd (Live.handleChange st userInput st)) = 0%nat).
Proof.
  unfold Live.handleChange.
  destruct (String.eqb_spec (Live.inputValue st) userInput) as [Heq | Hne]; simpl.
  - split_conj; try (intros; congruence); try reflexivity.
    split; [discriminate | intros [H _]; congruence].
  - destruct (String.eqb_spec userInput "") as [He | Hn].
    + subst userInput. split_conj; try (intros; congruence); try reflexivity.
      split; [discriminate | intros [_ H]; congruence].
    + assert (Ht : truthy userInput = true) by now apply truthy_spec.
      rewrite Ht. split_conj; try (intros; congruence); try reflexivity.
      * split; [now intros _ | reflexivity].
      * intros H. exfalso. apply H. now split.
Qed.

Lemma C7_live_change_witness :
  Live.inputValue Sample.live_two <> "marg" /\ "marg" <> "" /\
  Live.handleChange Sample.live_two "marg" Sample.live_two
  = (inr tt,
     {| Live.inputValue := "marg";
        Live.filteredSuggestions := [to_suggestion Sample.margo; to_suggestion Sample.mark];
        Live.highlightedIndex := -1; Live.showSuggestions := true;
        Live.loading := true; Live.error := None |},
     [NetCall "https://jsonplaceholder.typicode.com/users?q=marg"]).
Proof.
  assert (H1 : Live.inputValue Sample.live_two <> "marg") by (simpl; discriminate).
  assert (H2 : "marg" <> "") by discriminate.
  split; [exact H1 | split; [exact H2 |]].
  exact (proj1 (C7_live_change Sample.live_two "marg") H1 H2).
Defined.

(* ===================================================================== *)
(** ** Rendering                                                          *)
(* ===================================================================== *)

(** C8, counterexample to the claim as stated.  In the live-query hook,
    after a letter is typed and deleted while its request is unanswered, the
    input is empty and the list hidden, and the loading view is rendered;
    and after a query without match is extended, the list is visible, the
    input not empty and the candidate set empty, and the loading view is
    rendered, not the no-match view. *)
Lemma C8_loading_view_takes_precedence :
  (exists w tr,
      Live.run (Live.mount "") Sample.live_typed_and_deleted = Some (w, tr)
      /\ Live.showSuggestions (Live.cells w) = false
      /\ Live.inputValue (Live.cells w) = ""
      /\ Live.renderSuggestions (Live.cells w) = Some (LoadingView false))
  /\
  (exists w tr,
      Live.run (Live.mount "") Sample.live_refetch_no_match = Some (w, tr)
      /\ Live.showSuggestions (Live.cells w) = true
      /\ Live.inputValue (Live.cells w) = "xy"
      /\ Live.filteredSuggestions (Live.cells w) = []
      /\ Live.renderSuggestions (Live.cells w) = Some (LoadingView true)).
Proof.
  split; eexists; eexists; (split; [vm_compute; reflexivity|]);
    split_conj; reflexivity.
Qed.

(** C8, as the code has it.  [renderSuggestions] is a function of the
    cells that yields one of the four views or nothing, tried in the order
    loading, error, list.  Live-query hook: the loading view whenever
    loading is set; else the error view whenever an error is recorded;
    else nothing whenever the list is hidden or the input is empty; the
    no-match view exactly when not loading, no error is recorded, the list
    is visible, the input is not empty and the candidate set is empty; the
    populated list in the remaining case, for an input without
    regular-expression syntax (for other inputs that case is left out: the
    code builds a regular expression from the input there and may throw).
    Preload hook: the same with the loading and error views only for a
    non-empty input, so that nothing is rendered whenever the input is
    empty. *)
Theorem C8_render_by_precedence :
  (forall snap : Live.State,
      (Live.loading snap = true ->
       Live.renderSuggestions snap = Some (LoadingView (Live.showSuggestions snap)))
      /\ (Live.loading snap = false -> truthy_error (Live.error snap) = true ->
          exists m, Live.error snap = Some m
                    /\ Live.renderSuggestions snap
                       = Some (ErrorView (Live.showSuggestions snap) m))
      /\ (Live.loading snap = false -> truthy_error (Live.error snap) = false ->
          Live.showSuggestions snap = false \/ Live.inputValue snap = "" ->
          Live.renderSuggestions snap = None)
      /\ ((exists expanded, Live.renderSuggestions snap = Some (NoMatchView expanded))
          <-> Live.loading snap = false /\ truthy_error (Live.error snap) = false
              /\ Live.showSuggestions snap = true /\ Live.inputValue snap <> ""
              /\ Live.filteredSuggestions snap = [])
      /\ (Live.loading snap = false -> truthy_error (Live.error snap) = false ->
          Live.showSuggestions snap = true -> Live.inputValue snap <> "" ->
          Emphasis.literal_pattern (Live.inputValue snap) = true ->
          Live.filteredSuggestions snap <> [] ->
          Live.renderSuggestions snap
          = Some (SuggestionsView true
                    (mapi (fun suggestion index =>
                             (suggestion, index =? Live.highlightedIndex snap))
                          (Live.filteredSuggestions snap)))))
  /\
  (forall snap : Preload.State,
      (Preload.inputValue snap = "" -> Preload.renderSuggestions snap = None)
      /\ (Preload.inputValue snap <> "" -> Preload.loading snap = true ->
          Preload.renderSuggestions snap
          = Some (LoadingView (Preload.showSuggestions snap)))
      /\ (Preload.inputValue snap <> "" -> Preload.loading snap = false ->
          truthy_error (Preload.error snap) = true ->
          exists m, Preload.error snap = Some m
                    /\ Preload.renderSuggestions snap
                       = Some (ErrorView (Preload.showSuggestions snap) m))
      /\ (Preload.loading snap = false -> truthy_error (Preload.error snap) = false ->
          Preload.showSuggestions snap = false ->
          Preload.renderSuggestions snap = None)
      /\ ((exists expanded,
              Preload.renderSuggestions snap = Some (NoMatchView expanded))
          <-> Preload.loading snap = false /\ truthy_error (Preload.error snap) = false
              /\ Preload.showSuggestions snap = true /\ Preload.inputValue snap <> ""
              /\ Preload.filteredSuggestions snap = [])
      /\ (Preload.loading snap = false -> truthy_error (Preload.error snap) = false ->
          Preload.showSuggestions snap = true -> Preload.inputValue snap <> "" ->
          Emphasis.literal_pattern (Preload.inputValue snap) = true ->
          Preload.filteredSuggestions snap <> [] ->
          Preload.renderSuggestions snap
          = Some (SuggestionsView true
                    (mapi (fun suggestion index =>
                             (suggestion, index =? Preload.highlightedIndex snap))
                          (Preload.filteredSuggestions snap))))).
Proof.
  split; intros snap.
  - destruct snap as [input filtered index show load err].
    unfold Live.renderSuggestions; simpl.
    split_conj.
    + now intros ->.
    + intros -> Herr. rewrite Herr. destruct err as [m|]; [|discriminate].
      now exists m.
    + intros -> -> [-> | ->]; cbn; rewrite ?andb_false_r; reflexivity.
    + split.
      * intros [expanded H]. destruct load; [discriminate|].
        destruct (truthy_error err); [discriminate|].
        destruct show; [|discriminate]. simpl in H.
        destruct (truthy input) eqn:Et; [|discriminate].
        apply truthy_spec in Et.
        destruct filtered; [now auto | discriminate].
      * intros [-> [-> [-> [Hin ->]]]]. apply truthy_spec in Hin.
        rewrite Hin. now exists true.
    + intros -> -> -> Hin _ Hne. apply truthy_spec in Hin. rewrite Hin. simpl.
      destruct filtered as [|s filtered]; [congruence|].
      unfold array_length. simpl List.length. rewrite Nat2Z.inj_succ.
      destruct (Z.gtb_spec (Z.succ (Z.of_nat (List.length filtered))) 0);
        [reflexivity | lia].
  - destruct snap as [input all filtered index show load err].
    unfold Preload.renderSuggestions; simpl.
    split_conj.
    + intros ->. simpl. now rewrite !andb_false_r.
    + intros Hin ->. apply truthy_spec in Hin. now rewrite Hin.
    + intros Hin -> Herr. apply truthy_spec in Hin. rewrite Hin, Herr.
      destruct err as [m|]; [|discriminate]. now exists m.
    + intros -> -> ->. reflexivity.
    + split.
      * intros [expanded H]. destruct (truthy input) eqn:Et.
        -- rewrite !andb_true_r in H.
           destruct load; [discriminate|].
           destruct (truthy_error err); [discriminate|].
           destruct show; [|discriminate].
           apply truthy_spec in Et.
           destruct filtered; [now auto | discriminate].
        -- rewrite !andb_false_r in H. discriminate.
      * intros [-> [-> [-> [Hin ->]]]]. apply truthy_spec in Hin.
        rewrite Hin. now exists true.
    + intros -> -> -> Hin _ Hne. apply truthy_spec in Hin. rewrite Hin. simpl.
      destruct filtered as [|s filtered]; [congruence|].
      unfold array_length. simpl List.length. rewrite Nat2Z.inj_succ.
      destruct (Z.gtb_spec (Z.succ (Z.of_nat (List.length filtered))) 0);
        [reflexivity | lia].
Qed.

Lemma C8_render_by_precedence_witness :
  Live.loading Sample.live_two = false /\
  truthy_error (Live.error Sample.live_two) = false /\
  Live.showSuggestions Sample.live_two = true /\
  Live.inputValue Sample.live_two <> "" /\
  Emphasis.literal_pattern (Live.inputValue Sample.live_two) = true /\
  Live.filteredSuggestions Sample.live_two <> [] /\
  Live.renderSuggestions Sample.live_two
  = Some (SuggestionsView true
            [(to_suggestion Sample.margo, false); (to_suggestion Sample.mark, false)]).
Proof.
  assert (H1 : Live.loading Sample.live_two = false) by reflexivity.
  assert (H2 : truthy_error (Live.error Sample.live_two) = false) by reflexivity.
  assert (H3 : Live.showSuggestions Sample.live_two = true) by reflexivity.
  assert (H4 : Live.inputValue Sample.live_two <> "") by (simpl; discriminate).
  assert (H5 : Emphasis.literal_pattern (Live.inputValue Sample.live_two) = true)
    by reflexivity.
  assert (H6 : Live.filteredSuggestions Sample.live_two <> []) by (simpl; discriminate).
  split_conj; try assumption.
  exact (proj2 (proj2 (proj2 (proj2 (proj1 C8_render_by_precedence Sample.live_two))))
           H1 H2 H3 H4 H5 H6).
Defined.

(* ===================================================================== *)
(** ** What the preload hook and the key handler do preserve              *)
(* ===================================================================== *)

Module PreloadInvariant.

(** Every event of the preload hook keeps a visible list paired with a
    non-empty input. *)
Lemma step_visible (w w' : Preload.World) (ev : Preload.Event) (tr : list Effect) :
  (Preload.showSuggestions (Preload.cells w) = true ->
   Preload.inputValue (Preload.cells w) <> "") ->
  Preload.step w ev = Some (w', tr) ->
  Preload.showSuggestions (Preload.cells w') = true ->
  Preload.inputValue (Preload.cells w') <> "".
Proof.
  intros Hinv. destruct w as [[input all filtered index show load err] pend].
  simpl in Hinv.
  destruct ev as [userInput | key | suggestion | inside | outcome];
    unfold Preload.step; cbv beta iota.
  - unfold Preload.run_handler, Preload.handleChange, bind. simpl.
    destruct (truthy userInput) eqn:Et; simpl; intros E; injection E as <- _; simpl.
    + intros _. now apply truthy_spec.
    + discriminate.
  - unfold Preload.run_handler, Preload.handleKeyDown. simpl.
    destruct (String.eqb key "ArrowDown" && _)%bool;
      [simpl; intros E; injection E as <- _; exact Hinv|].
    destruct (String.eqb key "ArrowUp" && _)%bool;
      [simpl; intros E; injection E as <- _; exact Hinv|].
    destruct (String.eqb key "Enter");
      [|simpl; intros E; injection E as <- _; exact Hinv].
    destruct (index >=? 0).
    + destruct (array_get filtered index); simpl;
        intros E; injection E as <- _; simpl; [discriminate | exact Hinv].
    + destruct (array_length filtered >? 0).
      * destruct (array_get filtered 0); simpl;
          intros E; injection E as <- _; simpl; [discriminate | exact Hinv].
      * simpl. intros E; injection E as <- _; simpl. discriminate.
  - destruct (existsb _ _); [|discriminate]. simpl.
    intros E; injection E as <- _; simpl. discriminate.
  - destruct (Preload.renderSuggestions _).
    + destruct inside; simpl; intros E; injection E as <- _; simpl;
        [exact Hinv | discriminate].
    + destruct inside; [discriminate|]. simpl.
      intros E; injection E as <- _; exact Hinv.
  - simpl. destruct pend; [|discriminate].
    unfold Preload.run_handler, Preload.fetchAllSuggestions_settle,
      try_catch_finally, await_json, bind.
    destruct outcome as [e | status [e | data]];
      try destruct (response_ok status); simpl;
      intros E; injection E as <- _; exact Hinv.
Qed.

Lemma run_visible (evs : list Preload.Event) (w w' : Preload.World)
      (tr : list Effect) :
  (Preload.showSuggestions (Preload.cells w) = true ->
   Preload.inputValue (Preload.cells w) <> "") ->
  Preload.run w evs = Some (w', tr) ->
  Preload.showSuggestions (Preload.cells w') = true ->
  Preload.inputValue (Preload.cells w') <> "".
Proof.
  revert w tr. induction evs as [|ev evs IH]; intros w tr Hinv; simpl.
  - intros E. injection E as <- _. exact Hinv.
  - destruct (Preload.step w ev) as [[w1 t1]|] eqn:Es; [|discriminate].
    destruct (Preload.run w1 evs) as [[w2 t2]|] eqn:Er; [|discriminate].
    intros E. injection E as <- _.
    exact (IH _ _ (step_visible _ _ _ _ Hinv Es) Er).
Qed.

(** In every world the preload hook can be in, the list is hidden whenever
    the input is empty. *)
Lemma hidden_when_input_empty (query : string) (w : Preload.World) :
  Preload.reachable query w ->
  Preload.inputValue (Preload.cells w) = "" ->
  Preload.showSuggestions (Preload.cells w) = false.
Proof.
  intros [evs [tr Hlife]] Hempty.
  unfold Preload.lifetime, Preload.mount in Hlife. simpl in Hlife.
  destruct (Preload.run _ evs) as [[w1 t1]|] eqn:Er; [|discriminate].
  injection Hlife as <- _.
  destruct (Preload.showSuggestions (Preload.cells w1)) eqn:Es; [|reflexivity].
  exfalso. refine (run_visible _ _ _ _ _ Er Es Hempty).
  simpl. discriminate.
Qed.

End PreloadInvariant.

Module KeyRange.

(** The key handler alone keeps the index within the candidate set: from
    cells with the index in [-1, n-1], no key leads out of that range. *)
Lemma live_key_in_range (snap : Live.State) (key : string) :
  -1 <= Live.highlightedIndex snap
     <= array_length (Live.filteredSuggestions snap) - 1 ->
  let st' := fst (Live.run_handler (Live.handleKeyDown snap key) snap) in
  -1 <= Live.highlightedIndex st'
     <= array_length (Live.filteredSuggestions st') - 1.
Proof.
  intros H. destruct snap as [input filtered index show load err]. simpl in H.
  unfold Live.run_handler, Live.handleKeyDown. simpl.
  destruct (String.eqb key "ArrowDown"); simpl.
  - destruct (Z.ltb_spec index (array_length filtered - 1)); simpl; [lia|].
    destruct (String.eqb key "ArrowUp"); simpl.
    + destruct (Z.gtb_spec index 0); simpl; [lia|].
      destruct (String.eqb key "Enter"); simpl; [|lia].
      destruct (index >=? 0).
      * destruct (array_get filtered index); simpl; lia.
      * destruct (array_length filtered >? 0);
          [destruct (array_get filtered 0)|]; simpl; lia.
    + destruct (String.eqb key "Enter"); simpl; [|lia].
      destruct (index >=? 0).
      * destruct (array_get filtered index); simpl; lia.
      * destruct (array_length filtered >? 0);
          [destruct (array_get filtered 0)|]; simpl; lia.
  - destruct (String.eqb key "ArrowUp"); simpl.
    + destruct (Z.gtb_spec index 0); simpl; [lia|].
      destruct (String.eqb key "Enter"); simpl; [|lia].
      destruct (index >=? 0).
      * destruct (array_get filtered index); simpl; lia.
      * destruct (array_length filtered >? 0);
          [destruct (array_get filtered 0)|]; simpl; lia.
    + destruct (String.eqb key "Enter"); simpl; [|lia].
      destruct (index >=? 0).
      * destruct (array_get filtered index); simpl; lia.
      * destruct (array_length filtered >? 0);
          [destruct (array_get filtered 0)|]; simpl; lia.
Qed.

End KeyRange.

(* ===================================================================== *)
(** ** Further properties: the filter as the query grows                  *)
(* ===================================================================== *)

Section AppendLemmas.

Lemma append_assoc (a b c : string) : ((a ++ b) ++ c = a ++ b ++ c)%string.
Proof. induction a as [|x a IH]; simpl; [reflexivity | now rewrite IH]. Qed.

Lemma append_empty_r (a : string) : (a ++ "" = a)%string.
Proof. induction a as [|x a IH]; simpl; [reflexivity | now rewrite IH]. Qed.

Lemma append_length (a b : string) :
  String.length (a ++ b) = (String.length a + String.length b)%nat.
Proof. induction a as [|x a IH]; simpl; [reflexivity | now rewrite IH]. Qed.

Lemma toLowerCase_length (s : string) :
  String.length (toLowerCase s) = String.length s.
Proof. induction s as [|x s IH]; simpl; [reflexivity | now rewrite IH]. Qed.

Lemma toLowerCase_empty (s : string) : toLowerCase s = "" -> s = "".
Proof. destruct s; [reflexivity | discriminate]. Qed.

(** Containment up to case is transitive. *)
Lemma contains_ignoring_case_trans (text mid query : string) :
  contains_ignoring_case text mid -> contains_ignoring_case mid query ->
  contains_ignoring_case text query.
Proof.
  intros H1 H2.
  apply includes_lower_spec, includes_spec in H1. destruct H1 as [a [b H1]].
  apply includes_lower_spec, includes_spec in H2. destruct H2 as [c [d H2]].
  apply includes_lower_spec, includes_spec.
  exists (a ++ c)%string, (d ++ b)%string.
  now rewrite H1, H2, !append_assoc.
Qed.

Lemma filter_refine {A} (f g : A -> bool) (l : list A) :
  (forall x, g x = true -> f x = true) ->
  filter g (filter f l) = filter g l.
Proof.
  intros Himp. induction l as [|x l IH]; simpl; [reflexivity|].
  destruct (f x) eqn:Ef; simpl.
  - now rewrite IH.
  - destruct (g x) eqn:Eg; [|exact IH].
    apply Himp in Eg. congruence.
Qed.

End AppendLemmas.

(** X1. For ASCII strings: when a query holds an earlier query up to case,
    as it does when the user types on, filtering the list already filtered
    by the earlier query gives the same as filtering the whole list: in the
    preload hook on the cache, in the live-query hook on the fetched
    records.  So typing on never brings back a suggestion that was filtered
    out. *)
Theorem X1_filter_narrows (earlier later : string)
  (Hearlier : is_ascii earlier = true) (Hlater : is_ascii later = true)
  (Hgrow : occurs_ignoring_case later earlier) :
  (forall all : list Suggestion,
      ascii_names all ->
      Preload.filter_suggestions later (Preload.filter_suggestions earlier all)
      = Preload.filter_suggestions later all)
  /\ (forall all : list Suggestion,
         ascii_names all ->
         incl (Preload.filter_suggestions later all)
              (Preload.filter_suggestions earlier all))
  /\ (forall data : list RemoteUser,
         ascii_users data ->
         incl (Live.filter_users later data) (Live.filter_users earlier data)).
Proof.
  apply occurs_fold in Hgrow.
  assert (Hname : forall text, includes (toLowerCase text) (toLowerCase later) = true ->
                               includes (toLowerCase text) (toLowerCase earlier) = true).
  { intros text H. apply includes_lower_spec. apply includes_lower_spec in H.
    exact (contains_ignoring_case_trans _ _ _ H Hgrow). }
  split_conj.
  - intros all _. unfold Preload.filter_suggestions. apply filter_refine.
    intros x. apply Hname.
  - intros all _ s Hs. apply filter_suggestions_In in Hs. destruct Hs as [Hin Hc].
    apply filter_suggestions_In. split; [exact Hin|].
    exact (contains_ignoring_case_trans _ _ _ Hc Hgrow).
  - intros data _ s Hs. apply filter_users_In in Hs.
    destruct Hs as [user [Hin [Heq Hc]]]. apply filter_users_In.
    exists user. split_conj; auto.
    exact (contains_ignoring_case_trans _ _ _ Hc Hgrow).
Qed.

Lemma X1_filter_narrows_witness :
  is_ascii "mar" = true /\ is_ascii "MARG" = true /\
  occurs_ignoring_case "MARG" "mar" /\
  ascii_names (map to_suggestion Sample.listing) /\
  Preload.filter_suggestions "MARG"
    (Preload.filter_suggestions "mar" (map to_suggestion Sample.listing))
  = Preload.filter_suggestions "MARG" (map to_suggestion Sample.listing).
Proof.
  assert (H1 : is_ascii "mar" = true) by reflexivity.
  assert (H2 : is_ascii "MARG" = true) by reflexivity.
  assert (H3 : occurs_ignoring_case "MARG" "mar").
  { exists "", "MAR", "G". split; [reflexivity|].
    apply same_text_fold. reflexivity. }
  assert (H4 : ascii_names (map to_suggestion Sample.listing))
    by (repeat constructor).
  split_conj; try assumption.
  exact (proj1 (X1_filter_narrows "mar" "MARG" H1 H2 H3)
               (map to_suggestion Sample.listing) H4).
Defined.

(* ===================================================================== *)
(** ** Further properties: emphasis of the matched text                   *)
(* ===================================================================== *)

Module EmphasisLemmas.
Import Emphasis.

Lemma take_drop (n : nat) (s : string) : (take n s ++ drop n s)%string = s.
Proof.
  revert s. induction n as [|n IH]; intros [|c s]; simpl; try reflexivity.
  now rewrite IH.
Qed.

Lemma drop_length (n : nat) (s : string) :
  String.length (drop n s) = (String.length s - n)%nat.
Proof.
  revert s. induction n as [|n IH]; intros [|c s]; simpl; try reflexivity.
  apply IH.
Qed.

Lemma take_append (a b : string) : take (String.length a) (a ++ b) = a.
Proof. induction a as [|c a IH]; simpl; [now destruct b | now rewrite IH]. Qed.

Lemma toLowerCase_take (n : nat) (s : string) :
  toLowerCase (take n s) = take n (toLowerCase s).
Proof.
  revert s. induction n as [|n IH]; intros [|c s]; simpl; try reflexivity.
  now rewrite IH.
Qed.

(** The stretch taken at a matching position equals the pattern up to case. *)
Lemma matched_stretch (pattern rest : string) :
  startsWith (toLowerCase rest) (toLowerCase pattern) = true ->
  eq_ignoring_case (take (String.length pattern) rest) pattern.
Proof.
  intros H. apply startsWith_spec in H. destruct H as [post H].
  unfold eq_ignoring_case.
  rewrite toLowerCase_take, H, <- (toLowerCase_length pattern).
  apply take_append.
Qed.

Lemma pattern_length (pattern : string) :
  pattern <> "" -> (1 <= String.length pattern)%nat.
Proof. destruct pattern; [congruence | simpl; lia]. Qed.

(** With fuel above the length of the text left, the parts spell the
    segment under construction followed by the text left. *)
Lemma split_loop_spells (pattern : string) (Hne : pattern <> "") :
  forall (fuel : nat) (seg rest : string),
    (String.length rest < fuel)%nat ->
    fold_right (fun part acc => (part ++ acc)%string) ""
               (split_loop fuel pattern seg rest)
    = (seg ++ rest)%string.
Proof.
  induction fuel as [|fuel IH]; intros seg rest Hfuel; [lia|].
  destruct rest as [|c rest]; simpl.
  - reflexivity.
  - change (String (lower_ascii c) (toLowerCase rest))
      with (toLowerCase (String c rest)).
    destruct (startsWith (toLowerCase (String c rest)) (toLowerCase pattern)).
    + simpl fold_right. rewrite IH.
      * simpl. now rewrite take_drop.
      * rewrite drop_length. pose proof (pattern_length _ Hne).
        cbn [String.length] in Hfuel |- *. lia.
    + rewrite IH by (simpl in Hfuel; lia).
      now rewrite append_assoc.
Qed.

Lemma unmatched_empty (pattern rest : string) : unmatched pattern "" rest.
Proof.
  intros a b H Hb. destruct a; simpl in H; [congruence | discriminate].
Qed.

Lemma unmatched_step (pattern seg rest : string) (c : ascii) :
  unmatched pattern seg (String c rest) ->
  startsWith (toLowerCase (String c rest)) (toLowerCase pattern) = false ->
  unmatched pattern (seg ++ String c "") rest.
Proof.
  intros Hseg Hc. revert Hseg. induction seg as [|x seg IH]; intros Hseg a b H Hb.
  - simpl in H. destruct a as [|y a]; simpl in H.
    + subst b. exact Hc.
    + injection H as _ H. destruct a; simpl in H; [congruence | discriminate].
  - destruct a as [|y a]; simpl in H.
    + subst b. simpl.
      specialize (Hseg "" (String x seg) eq_refl ltac:(discriminate)).
      simpl in Hseg. now rewrite append_assoc.
    + injection H as _ H. refine (IH _ a b H Hb).
      intros a' b' Hs Hb'. apply (Hseg (String x a') b'); [|exact Hb'].
      simpl. now rewrite Hs.
Qed.

Lemma unmatched_no_occurrence (pattern seg rest : string) :
  pattern <> "" -> unmatched pattern seg rest ->
  ~ contains_ignoring_case seg pattern.
Proof.
  intros Hne Hseg [pre [mid [post [Heq Hmid]]]].
  assert (Hmid_ne : mid <> "").
  { intros ->. unfold eq_ignoring_case in Hmid. simpl in Hmid.
    symmetry in Hmid. apply toLowerCase_empty in Hmid. congruence. }
  assert (Hb : (mid ++ post)%string <> "")
    by (destruct mid; [congruence | discriminate]).
  pose proof (Hseg pre (mid ++ post)%string Heq Hb) as Hno.
  assert (Hyes : startsWith (toLowerCase ((mid ++ post) ++ rest))
                            (toLowerCase pattern) = true).
  { apply startsWith_spec. exists (toLowerCase (post ++ rest)).
    now rewrite append_assoc, toLowerCase_app, Hmid. }
  congruence.
Qed.

(** Every part is a match or a segment without occurrence. *)
Lemma split_loop_parts (pattern : string) (Hne : pattern <> "") :
  forall (fuel : nat) (seg rest : string),
    unmatched pattern seg rest ->
    Forall (fun part => eq_ignoring_case part pattern
                        \/ ~ contains_ignoring_case part pattern)
           (split_loop fuel pattern seg rest).
Proof.
  induction fuel as [|fuel IH]; intros seg rest Hseg; [constructor|].
  destruct rest as [|c rest]; simpl.
  - constructor; [|constructor]. right.
    exact (unmatched_no_occurrence _ _ _ Hne Hseg).
  - change (String (lower_ascii c) (toLowerCase rest))
      with (toLowerCase (String c rest)).
    destruct (startsWith (toLowerCase (String c rest)) (toLowerCase pattern)) eqn:E.
    + constructor; [right; exact (unmatched_no_occurrence _ _ _ Hne Hseg)|].
      constructor; [left; exact (matched_stretch _ _ E)|].
      apply IH, unmatched_empty.
    + apply IH. now apply unmatched_step.
Qed.

(** A text that holds an occurrence yields a matched part. *)
Lemma split_loop_finds (pattern : string) (Hne : pattern <> "") :
  forall (fuel : nat) (seg rest : string),
    (String.length rest < fuel)%nat ->
    includes (toLowerCase rest) (toLowerCase pattern) = true ->
    exists part, In part (split_loop fuel pattern seg rest)
                 /\ eq_ignoring_case part pattern.
Proof.
  induction fuel as [|fuel IH]; intros seg rest Hfuel Hinc; [lia|].
  destruct rest as [|c rest].
  - exfalso. simpl in Hinc. destruct pattern; [congruence | discriminate].
  - simpl split_loop.
    change (String (lower_ascii c) (toLowerCase rest))
      with (toLowerCase (String c rest)).
    destruct (startsWith (toLowerCase (String c rest)) (toLowerCase pattern)) eqn:E.
    + exists (take (String.length pattern) (String c rest)). split.
      * right. now left.
      * exact (matched_stretch _ _ E).
    + simpl in Hinc.
      change (String (lower_ascii c) (toLowerCase rest))
        with (toLowerCase (String c rest)) in Hinc.
      rewrite E in Hinc.
      apply IH; [simpl in Hfuel; lia | exact Hinc].
Qed.

Lemma displayed_map (f : string -> bool) (parts : list string) :
  displayed (map (fun part => (part, f part)) parts)
  = fold_right (fun part acc => (part ++ acc)%string) "" parts.
Proof. induction parts as [|p parts IH]; simpl; [reflexivity | now rewrite IH]. Qed.

Lemma displayed_In (parts : list (string * bool)) (part : string) (flag : bool) :
  In (part, flag) parts ->
  exists pre post, displayed parts = (pre ++ part ++ post)%string.
Proof.
  induction parts as [|p parts IH]; intros Hin; [contradiction|].
  destruct Hin as [-> | Hin]; simpl.
  - now exists "", (displayed parts).
  - destruct (IH Hin) as [pre [post ->]].
    exists (fst p ++ pre)%string, post. now rewrite append_assoc.
Qed.

(** A text that holds the highlight up to case gets an emphasised part. *)
Lemma emphasis_found (text highlight : string) :
  highlight <> "" -> contains_ignoring_case text highlight ->
  exists part, In (part, true) (getHighlightedText text highlight).
Proof.
  intros Hne Hc. apply includes_lower_spec in Hc.
  destruct (split_loop_finds highlight Hne
              (S (String.length text)) "" text ltac:(lia) Hc)
    as [part [Hin Heq]].
  exists part. unfold getHighlightedText. apply in_map_iff.
  exists part. split; [|exact Hin].
  f_equal. now apply String.eqb_eq.
Qed.

End EmphasisLemmas.

(** X2. For a highlight that is not empty and holds no regular-expression
    syntax, the parts [getHighlightedText] returns spell the text: read in
    order they are the text, with no character lost, added or changed. *)
Theorem X2_emphasis_spells_text (text highlight : string)
  (Hne : highlight <> "")
  (Hliteral : Emphasis.literal_pattern highlight = true) :
  Emphasis.displayed (Emphasis.getHighlightedText text highlight) = text.
Proof.
  unfold Emphasis.getHighlightedText, Emphasis.split_captured.
  rewrite EmphasisLemmas.displayed_map.
  rewrite (EmphasisLemmas.split_loop_spells highlight Hne) by lia.
  reflexivity.
Qed.

Lemma X2_emphasis_spells_text_witness :
  "ar" <> "" /\ Emphasis.literal_pattern "ar" = true /\
  Emphasis.displayed (Emphasis.getHighlightedText "Margo Mark" "ar") = "Margo Mark".
Proof.
  assert (H1 : "ar" <> "") by discriminate.
  assert (H2 : Emphasis.literal_pattern "ar" = true) by reflexivity.
  split; [exact H1 | split; [exact H2 |]].
  exact (X2_emphasis_spells_text "Margo Mark" "ar" H1 H2).
Defined.

(** X3. For an ASCII text and an ASCII highlight that is not empty and
    holds no regular-expression syntax, a part is emphasised only if it is
    the same as the highlight up to case, letter by letter, and a part that
    is not emphasised holds no occurrence of the highlight up to case. *)
Theorem X3_emphasis_marks_matches (text highlight : string)
  (Hne : highlight <> "")
  (Hliteral : Emphasis.literal_pattern highlight = true)
  (Htext : is_ascii text = true) (Hhighlight : is_ascii highlight = true)
  (part : string) (flag : bool)
  (Hin : In (part, flag) (Emphasis.getHighlightedText text highlight)) :
  (flag = true -> same_text part highlight)
  /\ (flag = false -> ~ occurs_ignoring_case part highlight).
Proof.
  unfold Emphasis.getHighlightedText in Hin. apply in_map_iff in Hin.
  destruct Hin as [p [Heq Hin]]. injection Heq as -> <-.
  pose proof (EmphasisLemmas.split_loop_parts highlight Hne
                (S (String.length text)) "" text
                (EmphasisLemmas.unmatched_empty _ _)) as Hall.
  rewrite Forall_forall in Hall. specialize (Hall part Hin).
  split.
  - intros H. apply same_text_fold. now apply String.eqb_eq in H.
  - intros H. apply String.eqb_neq in H. rewrite occurs_fold.
    destruct Hall as [Heq | Hno].
    + contradiction.
    + exact Hno.
Qed.

Lemma X3_emphasis_marks_matches_witness :
  "ar" <> "" /\ Emphasis.literal_pattern "ar" = true /\
  is_ascii "Margo Mark" = true /\ is_ascii "ar" = true /\
  In ("go M", false) (Emphasis.getHighlightedText "Margo Mark" "ar") /\
  ~ occurs_ignoring_case "go M" "ar".
Proof.
  assert (H1 : "ar" <> "") by discriminate.
  assert (H2 : Emphasis.literal_pattern "ar" = true) by reflexivity.
  assert (H3 : is_ascii "Margo Mark" = true) by reflexivity.
  assert (H4 : is_ascii "ar" = true) by reflexivity.
  assert (H5 : In ("go M", false) (Emphasis.getHighlightedText "Margo Mark" "ar"))
    by (vm_compute; auto).
  split_conj; try assumption.
  exact (proj2 (X3_emphasis_marks_matches "Margo Mark" "ar" H1 H2 H3 H4
                  "go M" false H5)
               eq_refl).
Defined.

(** X4. For such a text and highlight, some part is emphasised exactly
    when the text holds the highlight up to case, letter by letter. *)
Theorem X4_emphasis_finds_occurrence (text highlight : string)
  (Hne : highlight <> "")
  (Hliteral : Emphasis.literal_pattern highlight = true)
  (Htext : is_ascii text = true) (Hhighlight : is_ascii highlight = true) :
  (exists part, In (part, true) (Emphasis.getHighlightedText text highlight))
  <-> occurs_ignoring_case text highlight.
Proof.
  rewrite occurs_fold. split.
  - intros [part Hin].
    destruct (EmphasisLemmas.displayed_In _ _ _ Hin) as [pre [post Hd]].
    unfold Emphasis.getHighlightedText, Emphasis.split_captured in Hd.
    rewrite EmphasisLemmas.displayed_map in Hd.
    rewrite (EmphasisLemmas.split_loop_spells highlight Hne) in Hd by lia.
    simpl in Hd. exists pre, part, post. split; [exact Hd|].
    unfold Emphasis.getHighlightedText in Hin. apply in_map_iff in Hin.
    destruct Hin as [p [Heq _]]. injection Heq as -> Hflag.
    now apply String.eqb_eq in Hflag.
  - exact (EmphasisLemmas.emphasis_found text highlight Hne).
Qed.

Lemma X4_emphasis_finds_occurrence_witness :
  "ar" <> "" /\ Emphasis.literal_pattern "ar" = true /\
  is_ascii "MARGO" = true /\ is_ascii "ar" = true /\
  occurs_ignoring_case "MARGO" "ar" /\
  exists part, In (part, true) (Emphasis.getHighlightedText "MARGO" "ar").
Proof.
  assert (H1 : "ar" <> "") by discriminate.
  assert (H2 : Emphasis.literal_pattern "ar" = true) by reflexivity.
  assert (H3 : is_ascii "MARGO" = true) by reflexivity.
  assert (H4 : is_ascii "ar" = true) by reflexivity.
  assert (H5 : occurs_ignoring_case "MARGO" "ar").
  { exists "M", "AR", "GO". split; [reflexivity|].
    apply same_text_fold. reflexivity. }
  split_conj; try assumption.
  exact (proj2 (X4_emphasis_finds_occurrence "MARGO" "ar" H1 H2 H3 H4) H5).
Defined.

(* ===================================================================== *)
(** ** Further properties: induction over the events                      *)
(* ===================================================================== *)

Module PreloadRun.

Lemma preload_run_invariant (P : Preload.World -> Prop) :
  (forall w w' ev tr, P w -> Preload.step w ev = Some (w', tr) -> P w') ->
  forall evs w w' tr, P w -> Preload.run w evs = Some (w', tr) -> P w'.
Proof.
  intros Hstep. induction evs as [|ev evs IH]; intros w w' tr Hw; simpl.
  - intros E. injection E as <- _. exact Hw.
  - destruct (Preload.step w ev) as [[w1 t1]|] eqn:Es; [|discriminate].
    destruct (Preload.run w1 evs) as [[w2 t2]|] eqn:Er; [|discriminate].
    intros E. injection E as <- _.
    exact (IH _ _ _ (Hstep _ _ _ _ Hw Es) Er).
Qed.

Lemma preload_reachable_invariant (P : Preload.World -> Prop) (query : string) :
  P (fst (Preload.mount query)) ->
  (forall w w' ev tr, P w -> Preload.step w ev = Some (w', tr) -> P w') ->
  forall w, Preload.reachable query w -> P w.
Proof.
  intros H0 Hstep w [evs [tr Hlife]].
  unfold Preload.lifetime in Hlife.
  destruct (Preload.mount query) as [w0 t0] eqn:Em. simpl in H0.
  destruct (Preload.run w0 evs) as [[w1 t1]|] eqn:Er; [|discriminate].
  injection Hlife as <- _.
  exact (preload_run_invariant P Hstep _ _ _ _ H0 Er).
Qed.

Lemma preload_run_app (evs1 evs2 : list Preload.Event) (w w2 : Preload.World)
      (tr : list Effect) :
  Preload.run w (evs1 ++ evs2) = Some (w2, tr) ->
  exists w1 t1 t2,
    Preload.run w evs1 = Some (w1, t1) /\ Preload.run w1 evs2 = Some (w2, t2)
    /\ tr = t1 ++ t2.
Proof.
  revert w tr. induction evs1 as [|ev evs1 IH]; intros w tr; simpl.
  - intros H. now exists w, [], tr.
  - destruct (Preload.step w ev) as [[wa ta]|]; [|discriminate].
    destruct (Preload.run wa (evs1 ++ evs2)) as [[wb tb]|] eqn:Er; [|discriminate].
    intros E. injection E as <- <-.
    destruct (IH _ _ Er) as [w1 [t1 [t2 [H1 [H2 ->]]]]].
    rewrite H1. exists w1, (ta ++ t1), t2. split_conj; auto.
    now rewrite app_assoc.
Qed.

Lemma preload_after_reachable (query : string) (evs : list Preload.Event) :
  Preload.lifetime query evs <> None ->
  Preload.reachable query (preload_after query evs).
Proof.
  unfold preload_after. intros H.
  destruct (Preload.lifetime query evs) as [[w tr]|] eqn:E; [|congruence].
  now exists evs, tr.
Qed.

End PreloadRun.

Module LiveRun.

Lemma live_run_invariant (P : Live.World -> Prop) :
  (forall w w' ev tr, P w -> Live.step w ev = Some (w', tr) -> P w') ->
  forall evs w w' tr, P w -> Live.run w evs = Some (w', tr) -> P w'.
Proof.
  intros Hstep. induction evs as [|ev evs IH]; intros w w' tr Hw; simpl.
  - intros E. injection E as <- _. exact Hw.
  - destruct (Live.step w ev) as [[w1 t1]|] eqn:Es; [|discriminate].
    destruct (Live.run w1 evs) as [[w2 t2]|] eqn:Er; [|discriminate].
    intros E. injection E as <- _.
    exact (IH _ _ _ (Hstep _ _ _ _ Hw Es) Er).
Qed.

Lemma live_reachable_invariant (P : Live.World -> Prop) (query : string) :
  P (Live.mount query) ->
  (forall w w' ev tr, P w -> Live.step w ev = Some (w', tr) -> P w') ->
  forall w, Live.reachable query w -> P w.
Proof.
  intros H0 Hstep w [evs [tr Hrun]].
  exact (live_run_invariant P Hstep _ _ _ _ H0 Hrun).
Qed.

Lemma live_after_reachable (query : string) (evs : list Live.Event) :
  Live.run (Live.mount query) evs <> None ->
  Live.reachable query (live_after query evs).
Proof.
  unfold live_after. intros H.
  destruct (Live.run (Live.mount query) evs) as [[w tr]|] eqn:E; [|congruence].
  now exists evs, tr.
Qed.

End LiveRun.

(** Splits a step of the preload hook into the cases of its event and of
    every test its handler makes, each with the resulting world spelled
    out. *)
Ltac preload_step_cases w ev :=
  let input := fresh "input" in let all := fresh "all" in
  let filtered := fresh "filtered" in let index := fresh "index" in
  let show := fresh "show" in let load := fresh "load" in
  let err := fresh "err" in let pend := fresh "pend" in
  let E := fresh "E" in
  destruct w as [[input all filtered index show load err] pend];
  destruct ev as [?userInput | ?key | ?suggestion | ?inside | ?outcome];
  unfold Preload.step; cbv beta iota;
  unfold Preload.run_handler, Preload.handleChange, Preload.handleKeyDown,
    Preload.handleClick, Preload.handleClickOutside,
    Preload.fetchAllSuggestions_settle, try_catch_finally, await_json, bind,
    outside_of;
  simpl;
  repeat (match goal with
          | |- context [if ?c then _ else _] => destruct c eqn:?
          | |- context [match ?x with Some _ => _ | None => _ end] =>
              destruct x eqn:?
          | |- context [match ?x with inl _ => _ | inr _ => _ end] =>
              destruct x eqn:?
          | |- context [match ?x with Rejected _ => _ | Resolved _ _ => _ end] =>
              destruct x eqn:?
          end; simpl);
  intros E; try discriminate E; injection E as <- <-; simpl in *.

(** The same for the live-query hook. *)
Ltac live_step_cases w ev :=
  let input := fresh "input" in let filtered := fresh "filtered" in
  let index := fresh "index" in let show := fresh "show" in
  let load := fresh "load" in let err := fresh "err" in
  let flight := fresh "flight" in
  let E := fresh "E" in
  destruct w as [[input filtered index show load err] flight];
  destruct ev as [?userInput | ?key | ?suggestion | ?inside | ?query ?outcome];
  unfold Live.step; cbv beta iota;
  unfold Live.run_handler, Live.handleChange, Live.handleKeyDown,
    Live.handleClick, Live.handleClickOutside,
    Live.fetchFilteredSuggestions_start, Live.fetchFilteredSuggestions_settle,
    try_catch_finally, await_json, bind, outside_of;
  simpl;
  repeat (match goal with
          | |- context [if ?c then _ else _] => destruct c eqn:?
          | |- context [match ?x with Some _ => _ | None => _ end] =>
              destruct x eqn:?
          | |- context [match ?x with inl _ => _ | inr _ => _ end] =>
              destruct x eqn:?
          | |- context [match ?x with Rejected _ => _ | Resolved _ _ => _ end] =>
              destruct x eqn:?
          end; simpl);
  intros E; try discriminate E; injection E as <- <-; simpl in *.

(* ===================================================================== *)
(** ** Further properties: what the preload hook shows                    *)
(* ===================================================================== *)

Module PreloadShown.

(** While the request is unanswered both lists are empty; and every entry
    of the filtered list is in the cache and matches the input. *)
Lemma step_shown (w w' : Preload.World) (ev : Preload.Event) (tr : list Effect) :
  ((Preload.pending w = true ->
    Preload.allSuggestions (Preload.cells w) = []
    /\ Preload.filteredSuggestions (Preload.cells w) = [])
   /\ forall s, In s (Preload.filteredSuggestions (Preload.cells w)) ->
                In s (Preload.allSuggestions (Preload.cells w))
                /\ contains_ignoring_case
                     (name s) (Preload.inputValue (Preload.cells w))) ->
  Preload.step w ev = Some (w', tr) ->
  ((Preload.pending w' = true ->
    Preload.allSuggestions (Preload.cells w') = []
    /\ Preload.filteredSuggestions (Preload.cells w') = [])
   /\ forall s, In s (Preload.filteredSuggestions (Preload.cells w')) ->
                In s (Preload.allSuggestions (Preload.cells w'))
                /\ contains_ignoring_case
                     (name s) (Preload.inputValue (Preload.cells w'))).
Proof.
  intros Hinv. preload_step_cases w ev;
    try exact Hinv;
    try (split; [intros Hp; destruct (proj1 Hinv Hp) as [-> _]; now split
                | intros s0 []]);
    try (split; [discriminate|];
         destruct (proj1 Hinv eq_refl) as [_ ->]; intros s0 []).
  split.
  - intros Hp. destruct (proj1 Hinv Hp) as [-> _]. now split.
  - intros s Hs. now apply filter_suggestions_In.
Qed.

Lemma reachable_shown (query : string) (w : Preload.World) :
  Preload.reachable query w ->
  forall s, In s (Preload.filteredSuggestions (Preload.cells w)) ->
            In s (Preload.allSuggestions (Preload.cells w))
            /\ contains_ignoring_case
                 (name s) (Preload.inputValue (Preload.cells w)).
Proof.
  intros Hreach.
  refine (proj2 (PreloadRun.preload_reachable_invariant
                   (fun w =>
                      (Preload.pending w = true ->
                       Preload.allSuggestions (Preload.cells w) = []
                       /\ Preload.filteredSuggestions (Preload.cells w) = [])
                      /\ forall s, In s (Preload.filteredSuggestions (Preload.cells w)) ->
                                   In s (Preload.allSuggestions (Preload.cells w))
                                   /\ contains_ignoring_case
                                        (name s) (Preload.inputValue (Preload.cells w)))
                   query _ step_shown w Hreach)).
  simpl. split; [now split | intros s []].
Qed.

End PreloadShown.

(** X5. After any events that bring in ASCII strings only, each
    suggestion of the filtered list of the preload hook is in the cache and
    its name holds the current input up to case, letter by letter: the hook
    never shows a suggestion that does not match what is typed. *)
Theorem X5_preload_shows_only_matches
  (query : string) (evs : list Preload.Event) (w : Preload.World) (tr : list Effect)
  (Hlife : Preload.lifetime query evs = Some (w, tr))
  (Hascii : Forall preload_ascii_event evs)
  (s : Suggestion)
  (Hs : In s (Preload.filteredSuggestions (Preload.cells w))) :
  In s (Preload.allSuggestions (Preload.cells w))
  /\ occurs_ignoring_case (name s) (Preload.inputValue (Preload.cells w)).
Proof.
  assert (Hreach : Preload.reachable query w) by (now exists evs, tr).
  destruct (PreloadShown.reachable_shown query w Hreach s Hs) as [Hin Hc].
  split; [exact Hin | now apply occurs_fold].
Qed.

Lemma X5_preload_shows_only_matches_witness :
  Preload.lifetime "" Sample.preload_one_left
  = Some (preload_after "" Sample.preload_one_left, [NetCall Preload.url]) /\
  Forall preload_ascii_event Sample.preload_one_left /\
  In (to_suggestion Sample.margo)
     (Preload.filteredSuggestions
        (Preload.cells (preload_after "" Sample.preload_one_left))) /\
  occurs_ignoring_case
    "Margo" (Preload.inputValue
               (Preload.cells (preload_after "" Sample.preload_one_left))).
Proof.
  assert (H1 : Preload.lifetime "" Sample.preload_one_left
               = Some (preload_after "" Sample.preload_one_left,
                       [NetCall Preload.url]))
    by (vm_compute; reflexivity).
  assert (H2 : Forall preload_ascii_event Sample.preload_one_left)
    by (repeat constructor).
  assert (H3 : In (to_suggestion Sample.margo)
                  (Preload.filteredSuggestions
                     (Preload.cells (preload_after "" Sample.preload_one_left))))
    by (vm_compute; auto).
  split_conj; try assumption.
  exact (proj2 (X5_preload_shows_only_matches
                  "" _ _ _ H1 H2 (to_suggestion Sample.margo) H3)).
Defined.

Module Rendered.

Lemma mapi_from_fst (f : Suggestion -> Z -> bool) (xs : list Suggestion) (i : Z) :
  map fst (mapi_from (fun s index => (s, f s index)) i xs) = xs.
Proof.
  revert i. induction xs as [|x xs IH]; intros i; simpl; [reflexivity|].
  now rewrite IH.
Qed.

(** The entries on screen are the filtered list, and there are some only
    when the input is not empty. *)
Lemma preload_clickable (snap : Preload.State) (s : Suggestion) :
  In s (Preload.clickable snap) ->
  In s (Preload.filteredSuggestions snap) /\ Preload.inputValue snap <> "".
Proof.
  unfold Preload.clickable, Preload.renderSuggestions.
  destruct (truthy (Preload.inputValue snap)) eqn:Et.
  - apply truthy_spec in Et. rewrite !andb_true_r.
    destruct (Preload.loading snap); [contradiction|].
    destruct (truthy_error (Preload.error snap)); [contradiction|].
    destruct (Preload.showSuggestions snap); [|contradiction].
    destruct (array_length (Preload.filteredSuggestions snap) >? 0);
      [|contradiction].
    unfold mapi. rewrite (mapi_from_fst (fun _ index =>
                            index =? Preload.highlightedIndex snap)).
    now split.
  - rewrite !andb_false_r. contradiction.
Qed.

End Rendered.

(** X6. After any events that bring in ASCII strings only, with an input
    free of regular-expression syntax, every entry the preload hook has on
    screen has an emphasised part: [getHighlightedText] on its name and the
    input marks at least one stretch. *)
Theorem X6_preload_entries_emphasised
  (query : string) (evs : list Preload.Event) (w : Preload.World) (tr : list Effect)
  (Hlife : Preload.lifetime query evs = Some (w, tr))
  (Hascii : Forall preload_ascii_event evs)
  (Hliteral : Emphasis.literal_pattern (Preload.inputValue (Preload.cells w)) = true)
  (s : Suggestion) (Hs : In s (Preload.clickable (Preload.cells w))) :
  exists part,
    In (part, true)
       (Emphasis.getHighlightedText (name s) (Preload.inputValue (Preload.cells w))).
Proof.
  assert (Hreach : Preload.reachable query w) by (now exists evs, tr).
  apply Rendered.preload_clickable in Hs. destruct Hs as [Hin Hne].
  apply (EmphasisLemmas.emphasis_found _ _ Hne).
  exact (proj2 (PreloadShown.reachable_shown query w Hreach s Hin)).
Qed.

Lemma X6_preload_entries_emphasised_witness :
  Preload.lifetime "" Sample.preload_one_left
  = Some (preload_after "" Sample.preload_one_left, [NetCall Preload.url]) /\
  Forall preload_ascii_event Sample.preload_one_left /\
  In (to_suggestion Sample.margo)
     (Preload.clickable (Preload.cells (preload_after "" Sample.preload_one_left))) /\
  exists part,
    In (part, true)
       (Emphasis.getHighlightedText
          "Margo"
          (Preload.inputValue (Preload.cells (preload_after "" Sample.preload_one_left)))).
Proof.
  assert (H1 : Preload.lifetime "" Sample.preload_one_left
               = Some (preload_after "" Sample.preload_one_left,
                       [NetCall Preload.url]))
    by (vm_compute; reflexivity).
  assert (H2 : Forall preload_ascii_event Sample.preload_one_left)
    by (repeat constructor).
  assert (H3 : Emphasis.literal_pattern
                 (Preload.inputValue
                    (Preload.cells (preload_after "" Sample.preload_one_left))) = true)
    by (vm_compute; reflexivity).
  assert (H4 : In (to_suggestion Sample.margo)
                  (Preload.clickable
                     (Preload.cells (preload_after "" Sample.preload_one_left))))
    by (vm_compute; auto).
  split; [exact H1 | split; [exact H2 | split; [exact H4 |]]].
  exact (X6_preload_entries_emphasised "" _ _ _ H1 H2 H3
           (to_suggestion Sample.margo) H4).
Defined.

(* ===================================================================== *)
(** ** Further properties: the cache of the preload hook                  *)
(* ===================================================================== *)

Module PreloadCache.

Lemma step_answered (cache : list Suggestion) (w w' : Preload.World)
      (ev : Preload.Event) (tr : list Effect) :
  Preload.pending w = false /\ Preload.allSuggestions (Preload.cells w) = cache ->
  Preload.step w ev = Some (w', tr) ->
  Preload.pending w' = false /\ Preload.allSuggestions (Preload.cells w') = cache.
Proof.
  intros Hinv. preload_step_cases w ev; try exact Hinv;
    destruct Hinv; discriminate.
Qed.

(** While the request is unanswered the lists are empty and no entry is
    highlighted. *)
Lemma step_unanswered (w w' : Preload.World) (ev : Preload.Event)
      (tr : list Effect) :
  (Preload.pending w = true ->
   Preload.allSuggestions (Preload.cells w) = []
   /\ Preload.filteredSuggestions (Preload.cells w) = []
   /\ Preload.highlightedIndex (Preload.cells w) = -1) ->
  Preload.step w ev = Some (w', tr) ->
  (Preload.pending w' = true ->
   Preload.allSuggestions (Preload.cells w') = []
   /\ Preload.filteredSuggestions (Preload.cells w') = []
   /\ Preload.highlightedIndex (Preload.cells w') = -1).
Proof.
  intros Hinv. preload_step_cases w ev; try exact Hinv; try discriminate;
    intros Hp; destruct (Hinv Hp) as [Ha [Hf Hi]]; subst;
    try (now split_conj); cbn in *; try discriminate; try lia.
Qed.

(** What a failed request leaves in the cells. *)
Lemma settle_failure (outcome : FetchOutcome) (e : Exn) (st : Preload.State) :
  failure outcome = Some e ->
  Preload.fetchAllSuggestions_settle outcome st
  = (inr tt,
     {| Preload.inputValue := Preload.inputValue st; Preload.allSuggestions := [];
        Preload.filteredSuggestions := Preload.filteredSuggestions st;
        Preload.highlightedIndex := Preload.highlightedIndex st;
        Preload.showSuggestions := Preload.showSuggestions st;
        Preload.loading := false;
        Preload.error := Some (fetch_error_message e) |}, []).
Proof.
  unfold failure, Preload.fetchAllSuggestions_settle, try_catch_finally,
    await_json, bind.
  destruct outcome as [e' | status [e' | data]]; simpl;
    try destruct (response_ok status); simpl; intros H;
    try discriminate H; injection H as <-; reflexivity.
Qed.

(** Once the request has failed, no event changes the error, fills a list
    or highlights an entry. *)
Lemma step_failed (message : string) (w w' : Preload.World) (ev : Preload.Event)
      (tr : list Effect) :
  (Preload.pending w = false
   /\ Preload.allSuggestions (Preload.cells w) = []
   /\ Preload.filteredSuggestions (Preload.cells w) = []
   /\ Preload.highlightedIndex (Preload.cells w) = -1
   /\ Preload.loading (Preload.cells w) = false
   /\ Preload.error (Preload.cells w) = Some message) ->
  Preload.step w ev = Some (w', tr) ->
  (Preload.pending w' = false
   /\ Preload.allSuggestions (Preload.cells w') = []
   /\ Preload.filteredSuggestions (Preload.cells w') = []
   /\ Preload.highlightedIndex (Preload.cells w') = -1
   /\ Preload.loading (Preload.cells w') = false
   /\ Preload.error (Preload.cells w') = Some message).
Proof.
  intros Hinv. preload_step_cases w ev; try exact Hinv;
    destruct Hinv as [Hp [Ha [Hf [Hi [Hl He]]]]]; subst;
    try discriminate; try (now split_conj); cbn in *; try discriminate; try lia.
  (* a click needs an entry on screen, and the filtered list is empty *)
  unfold Preload.clickable, Preload.renderSuggestions in *. cbn in *.
  repeat match goal with
         | H : context [if ?c then _ else _] |- _ => destruct c; cbn in H
         end; discriminate.
Qed.

End PreloadCache.

(** X7. Once the request of the mount is answered, the cache of the
    preload hook never changes again, whatever the events, and no second
    answer is accepted. *)
Theorem X7_preload_cache_written_once
  (w w' : Preload.World) (evs : list Preload.Event) (tr : list Effect)
  (Hanswered : Preload.pending w = false)
  (Hrun : Preload.run w evs = Some (w', tr)) :
  Preload.allSuggestions (Preload.cells w') = Preload.allSuggestions (Preload.cells w)
  /\ Preload.pending w' = false
  /\ forall outcome, Preload.step w' (Preload.Settle outcome) = None.
Proof.
  destruct (PreloadRun.preload_run_invariant
              (fun w0 => Preload.pending w0 = false
                         /\ Preload.allSuggestions (Preload.cells w0)
                            = Preload.allSuggestions (Preload.cells w))
              (PreloadCache.step_answered _) evs w w' tr
              (conj Hanswered eq_refl) Hrun) as [Hp Ha].
  split_conj; auto. intros outcome. simpl. now rewrite Hp.
Qed.

Lemma X7_preload_cache_written_once_witness :
  Preload.pending (preload_after "" [Preload.Settle Sample.ok_listing]) = false /\
  Preload.allSuggestions
    (Preload.cells
       (preload_after "" (Preload.Settle Sample.ok_listing
                            :: [Preload.Change "mar"; Preload.KeyDown "Enter"])))
  = Preload.allSuggestions
      (Preload.cells (preload_after "" [Preload.Settle Sample.ok_listing])).
Proof.
  assert (H : Preload.pending (preload_after "" [Preload.Settle Sample.ok_listing])
              = false) by reflexivity.
  split; [exact H|].
  refine (proj1 (X7_preload_cache_written_once
                   (preload_after "" [Preload.Settle Sample.ok_listing])
                   _ [Preload.Change "mar"; Preload.KeyDown "Enter"]
                   [OnSelect "Margo"] H _)).
  vm_compute. reflexivity.
Defined.

(** X8. When the request of the mount fails, the preload hook stays
    failed: after any further events the recorded error is still the one of
    the failure, the cache and the filtered list are empty, no entry is
    highlighted, and whenever the input is not empty the error view is
    what is rendered. *)
Theorem X8_preload_failure_is_permanent
  (query : string) (before later : list Preload.Event)
  (outcome : FetchOutcome) (e : Exn) (w : Preload.World) (tr : list Effect)
  (Hfail : failure outcome = Some e)
  (Hlife : Preload.lifetime query (before ++ Preload.Settle outcome :: later)
           = Some (w, tr)) :
  Preload.error (Preload.cells w) = Some (fetch_error_message e)
  /\ Preload.allSuggestions (Preload.cells w) = []
  /\ Preload.filteredSuggestions (Preload.cells w) = []
  /\ Preload.highlightedIndex (Preload.cells w) = -1
  /\ (Preload.inputValue (Preload.cells w) <> "" ->
      Preload.renderSuggestions (Preload.cells w)
      = Some (ErrorView (Preload.showSuggestions (Preload.cells w))
                        (fetch_error_message e))).
Proof.
  unfold Preload.lifetime in Hlife.
  destruct (Preload.mount query) as [w0 t0] eqn:Em.
  destruct (Preload.run w0 _) as [[w2 t2]|] eqn:Er; [|discriminate].
  injection Hlife as <- _.
  apply PreloadRun.preload_run_app in Er. destruct Er as [w1 [ta [tb [Hbefore [Hrest _]]]]].
  assert (H1 : Preload.pending w1 = true ->
               Preload.allSuggestions (Preload.cells w1) = []
               /\ Preload.filteredSuggestions (Preload.cells w1) = []
               /\ Preload.highlightedIndex (Preload.cells w1) = -1).
  { refine (PreloadRun.preload_run_invariant _ PreloadCache.step_unanswered
              before w0 w1 ta _ Hbefore).
    unfold Preload.mount in Em. simpl in Em. injection Em as <- _.
    simpl. now split_conj. }
  simpl in Hrest.
  destruct (Preload.pending w1) eqn:Hp; [|discriminate].
  destruct (H1 eq_refl) as [Ha [Hf Hi]].
  unfold Preload.run_handler in Hrest.
  rewrite (PreloadCache.settle_failure outcome e _ Hfail) in Hrest.
  match type of Hrest with
  | match Preload.run ?wf later with _ => _ end = _ =>
      destruct (Preload.run wf later) as [[w3 t3]|] eqn:Hlater; [|discriminate];
      injection Hrest as -> _;
      pose proof (PreloadRun.preload_run_invariant _
                    (PreloadCache.step_failed (fetch_error_message e))
                    later wf w2 t3) as Hinv
  end.
  simpl in Hinv. rewrite Hf, Hi in Hinv, Hlater.
  specialize (Hinv ltac:(now split_conj) Hlater).
  destruct Hinv as [_ [Ha2 [Hf2 [Hi2 [Hl2 He2]]]]].
  split_conj; auto.
  intros Hin. unfold Preload.renderSuggestions.
  apply truthy_spec in Hin. rewrite Hl2, He2, Hin. reflexivity.
Qed.

Lemma X8_preload_failure_is_permanent_witness :
  failure (Rejected Sample.failed_to_fetch) = Some Sample.failed_to_fetch /\
  Preload.renderSuggestions
    (Preload.cells
       (preload_after "" ([Preload.Change "m"]
                            ++ Preload.Settle (Rejected Sample.failed_to_fetch)
                            :: [Preload.Change "ma"; Preload.KeyDown "Enter";
                                Preload.Change "mar"])))
  = Some (ErrorView true
            "Error fetching suggestions - TypeError: Failed to fetch, please try again later").
Proof.
  assert (H : failure (Rejected Sample.failed_to_fetch) = Some Sample.failed_to_fetch)
    by reflexivity.
  split; [exact H|].
  refine (proj2 (proj2 (proj2 (proj2
            (X8_preload_failure_is_permanent
               "" [Preload.Change "m"]
               [Preload.Change "ma"; Preload.KeyDown "Enter"; Preload.Change "mar"]
               (Rejected Sample.failed_to_fetch) Sample.failed_to_fetch
               (preload_after "" ([Preload.Change "m"]
                                    ++ Preload.Settle (Rejected Sample.failed_to_fetch)
                                    :: [Preload.Change "ma"; Preload.KeyDown "Enter";
                                        Preload.Change "mar"]))
               [NetCall Preload.url] H _)))) _).
  - vm_compute. reflexivity.
  - vm_compute. discriminate.
Defined.

(* ===================================================================== *)
(** ** Further properties: invariants of both hooks                       *)
(* ===================================================================== *)

Module Invariants.

Lemma live_step_loading (w w' : Live.World) (ev : Live.Event) (tr : list Effect) :
  (Live.loading (Live.cells w) = true -> Live.inflight w <> []) ->
  Live.step w ev = Some (w', tr) ->
  (Live.loading (Live.cells w') = true -> Live.inflight w' <> []).
Proof.
  intros Hinv. live_step_cases w ev; try exact Hinv; try discriminate.
  intros _ H. now apply app_eq_nil in H.
Qed.

Lemma preload_step_loading (w w' : Preload.World) (ev : Preload.Event)
      (tr : list Effect) :
  Preload.loading (Preload.cells w) = Preload.pending w ->
  Preload.step w ev = Some (w', tr) ->
  Preload.loading (Preload.cells w') = Preload.pending w'.
Proof.
  intros Hinv. preload_step_cases w ev; try exact Hinv; reflexivity.
Qed.

Lemma live_step_index (w w' : Live.World) (ev : Live.Event) (tr : list Effect) :
  -1 <= Live.highlightedIndex (Live.cells w) ->
  Live.step w ev = Some (w', tr) ->
  -1 <= Live.highlightedIndex (Live.cells w').
Proof. intros Hinv. live_step_cases w ev; lia. Qed.

Lemma preload_step_index (w w' : Preload.World) (ev : Preload.Event)
      (tr : list Effect) :
  -1 <= Preload.highlightedIndex (Preload.cells w) ->
  Preload.step w ev = Some (w', tr) ->
  -1 <= Preload.highlightedIndex (Preload.cells w').
Proof. intros Hinv. preload_step_cases w ev; lia. Qed.

Lemma live_step_error (w w' : Live.World) (ev : Live.Event) (tr : list Effect) :
  (forall m, Live.error (Live.cells w) = Some m -> exists e, m = fetch_error_message e) ->
  Live.step w ev = Some (w', tr) ->
  (forall m, Live.error (Live.cells w') = Some m -> exists e, m = fetch_error_message e).
Proof.
  intros Hinv. live_step_cases w ev; try exact Hinv; try discriminate;
    intros m Hm; injection Hm as <-; eauto.
Qed.

Lemma preload_step_error (w w' : Preload.World) (ev : Preload.Event)
      (tr : list Effect) :
  (forall m, Preload.error (Preload.cells w) = Some m ->
             exists e, m = fetch_error_message e) ->
  Preload.step w ev = Some (w', tr) ->
  (forall m, Preload.error (Preload.cells w') = Some m ->
             exists e, m = fetch_error_message e).
Proof.
  intros Hinv. preload_step_cases w ev; try exact Hinv; try discriminate;
    intros m Hm; injection Hm as <-; eauto.
Qed.

End Invariants.

(** X9. The loading flag follows the requests.  In every world the
    live-query hook can be in, the flag is clear once no request is
    unanswered; in every world the preload hook can be in, the flag is set
    exactly while the request of the mount is unanswered. *)
Theorem X9_loading_follows_requests (query : string) :
  (forall w, Live.reachable query w ->
             Live.inflight w = [] -> Live.loading (Live.cells w) = false)
  /\ (forall w, Preload.reachable query w ->
                Preload.loading (Preload.cells w) = Preload.pending w).
Proof.
  split.
  - intros w Hreach Hnone.
    pose proof (LiveRun.live_reachable_invariant
                  (fun w => Live.loading (Live.cells w) = true -> Live.inflight w <> [])
                  query ltac:(simpl; discriminate)
                  Invariants.live_step_loading w Hreach) as H.
    destruct (Live.loading (Live.cells w)) eqn:El; [|reflexivity].
    exfalso. exact (H El Hnone).
  - intros w Hreach.
    exact (PreloadRun.preload_reachable_invariant
             (fun w => Preload.loading (Preload.cells w) = Preload.pending w)
             query eq_refl Invariants.preload_step_loading w Hreach).
Qed.

Lemma X9_loading_follows_requests_witness :
  Live.reachable "" (live_after "" Sample.live_one_left) /\
  Live.inflight (live_after "" Sample.live_one_left) = [] /\
  Live.loading (Live.cells (live_after "" Sample.live_one_left)) = false.
Proof.
  assert (H1 : Live.reachable "" (live_after "" Sample.live_one_left))
    by (apply LiveRun.live_after_reachable; vm_compute; discriminate).
  assert (H2 : Live.inflight (live_after "" Sample.live_one_left) = [])
    by reflexivity.
  split; [exact H1 | split; [exact H2 |]].
  exact (proj1 (X9_loading_follows_requests "") _ H1 H2).
Defined.

(** X10. In every world either hook can be in, the highlighted index is at
    least -1, and a recorded error is the message built by the [catch] of
    the request, which is never empty: the error is rendered as soon as one
    is recorded. *)
Theorem X10_index_floor_and_error_shape (query : string) :
  (forall w, Live.reachable query w ->
             -1 <= Live.highlightedIndex (Live.cells w)
             /\ forall m, Live.error (Live.cells w) = Some m ->
                          (exists e, m = fetch_error_message e)
                          /\ truthy_error (Live.error (Live.cells w)) = true)
  /\ (forall w, Preload.reachable query w ->
                -1 <= Preload.highlightedIndex (Preload.cells w)
                /\ forall m, Preload.error (Preload.cells w) = Some m ->
                             (exists e, m = fetch_error_message e)
                             /\ truthy_error (Preload.error (Preload.cells w)) = true).
Proof.
  split; intros w Hreach; split.
  - exact (LiveRun.live_reachable_invariant
             (fun w => -1 <= Live.highlightedIndex (Live.cells w))
             query ltac:(simpl; lia) Invariants.live_step_index w Hreach).
  - intros m Hm.
    destruct (LiveRun.live_reachable_invariant
                (fun w => forall m, Live.error (Live.cells w) = Some m ->
                                    exists e, m = fetch_error_message e)
                query ltac:(simpl; discriminate)
                Invariants.live_step_error w Hreach m Hm) as [e ->].
    split; [now exists e | now rewrite Hm].
  - exact (PreloadRun.preload_reachable_invariant
             (fun w => -1 <= Preload.highlightedIndex (Preload.cells w))
             query ltac:(simpl; lia) Invariants.preload_step_index w Hreach).
  - intros m Hm.
    destruct (PreloadRun.preload_reachable_invariant
                (fun w => forall m, Preload.error (Preload.cells w) = Some m ->
                                    exists e, m = fetch_error_message e)
                query ltac:(simpl; discriminate)
                Invariants.preload_step_error w Hreach m Hm) as [e ->].
    split; [now exists e | now rewrite Hm].
Qed.

Lemma X10_index_floor_and_error_shape_witness :
  Live.reachable "" (live_after "" Sample.live_one_left) /\
  -1 <= Live.highlightedIndex (Live.cells (live_after "" Sample.live_one_left)).
Proof.
  assert (H1 : Live.reachable "" (live_after "" Sample.live_one_left))
    by (apply LiveRun.live_after_reachable; vm_compute; discriminate).
  split; [exact H1|].
  exact (proj1 (proj1 (X10_index_floor_and_error_shape "") _ H1)).
Defined.

(* ===================================================================== *)
(** ** Further properties: exceptions that escape a handler               *)
(* ===================================================================== *)

Module Escapes.

(** Closes the cases of a step in which no exception is reported. *)
Ltac no_uncaught :=
  simpl; intros Hin;
  repeat match goal with
         | H : _ \/ _ |- _ => destruct H
         | H : False |- _ => destruct H
         end; try discriminate.

Lemma live_uncaught (w w' : Live.World) (ev : Live.Event) (tr : list Effect)
      (e : Exn) :
  Live.step w ev = Some (w', tr) -> In (Uncaught e) tr ->
  ev = Live.KeyDown "Enter"
  /\ 0 <= Live.highlightedIndex (Live.cells w)
  /\ array_length (Live.filteredSuggestions (Live.cells w))
     <= Live.highlightedIndex (Live.cells w)
  /\ e = undefined_name /\ w' = w /\ tr = [Uncaught e].
Proof.
  live_step_cases w ev; no_uncaught.
  - match goal with H : Uncaught _ = Uncaught _ |- _ => injection H as <- end.
    match goal with H : (_ =? "Enter")%string = true |- _ =>
                      apply String.eqb_eq in H; subst end.
    match goal with H : (_ >=? 0) = true |- _ => apply Z.geb_le in H end.
    split_conj; auto.
    destruct (Z.le_gt_cases (array_length filtered) index) as [|Hlt]; [assumption|].
    destruct (proj2 (array_get_present filtered index) ltac:(lia)) as [x Hx].
    congruence.
  - exfalso.
    match goal with H : (_ >? 0) = true |- _ => apply Z.gtb_lt in H end.
    destruct (proj2 (array_get_present filtered 0) ltac:(lia)) as [x Hx].
    congruence.
Qed.

Lemma preload_uncaught (w w' : Preload.World) (ev : Preload.Event)
      (tr : list Effect) (e : Exn) :
  Preload.step w ev = Some (w', tr) -> In (Uncaught e) tr ->
  ev = Preload.KeyDown "Enter"
  /\ 0 <= Preload.highlightedIndex (Preload.cells w)
  /\ array_length (Preload.filteredSuggestions (Preload.cells w))
     <= Preload.highlightedIndex (Preload.cells w)
  /\ e = undefined_name /\ w' = w /\ tr = [Uncaught e].
Proof.
  preload_step_cases w ev; no_uncaught.
  - match goal with H : Uncaught _ = Uncaught _ |- _ => injection H as <- end.
    match goal with H : (_ =? "Enter")%string = true |- _ =>
                      apply String.eqb_eq in H; subst end.
    match goal with H : (_ >=? 0) = true |- _ => apply Z.geb_le in H end.
    split_conj; auto.
    destruct (Z.le_gt_cases (array_length filtered) index) as [|Hlt]; [assumption|].
    destruct (proj2 (array_get_present filtered index) ltac:(lia)) as [x Hx].
    congruence.
  - exfalso.
    match goal with H : (_ >? 0) = true |- _ => apply Z.gtb_lt in H end.
    destruct (proj2 (array_get_present filtered 0) ltac:(lia)) as [x Hx].
    congruence.
Qed.

End Escapes.

(** X11. In both hooks the only exception that escapes a handler is the
    one of Enter on an index at or beyond the end of the filtered list:
    whenever an event reports an uncaught exception, the event is Enter,
    the index is at least 0 and at least the length, the exception is the
    [TypeError] of reading [name] of [undefined], and the cells are left as
    they were.  No change, click, mousedown or settled request throws. *)
Theorem X11_only_stale_enter_throws :
  (forall (w w' : Live.World) (ev : Live.Event) (tr : list Effect) (e : Exn),
      Live.step w ev = Some (w', tr) -> In (Uncaught e) tr ->
      ev = Live.KeyDown "Enter"
      /\ 0 <= Live.highlightedIndex (Live.cells w)
      /\ array_length (Live.filteredSuggestions (Live.cells w))
         <= Live.highlightedIndex (Live.cells w)
      /\ e = undefined_name /\ w' = w /\ tr = [Uncaught e])
  /\
  (forall (w w' : Preload.World) (ev : Preload.Event) (tr : list Effect) (e : Exn),
      Preload.step w ev = Some (w', tr) -> In (Uncaught e) tr ->
      ev = Preload.KeyDown "Enter"
      /\ 0 <= Preload.highlightedIndex (Preload.cells w)
      /\ array_length (Preload.filteredSuggestions (Preload.cells w))
         <= Preload.highlightedIndex (Preload.cells w)
      /\ e = undefined_name /\ w' = w /\ tr = [Uncaught e]).
Proof.
  split; [exact Escapes.live_uncaught | exact Escapes.preload_uncaught].
Qed.

Lemma X11_only_stale_enter_throws_witness :
  Preload.step (preload_after "" Sample.preload_none_left) (Preload.KeyDown "Enter")
  = Some (preload_after "" Sample.preload_none_left, [Uncaught undefined_name])
  /\ array_length (Preload.filteredSuggestions
                     (Preload.cells (preload_after "" Sample.preload_none_left)))
     <= Preload.highlightedIndex
          (Preload.cells (preload_after "" Sample.preload_none_left)).
Proof.
  assert (H : Preload.step (preload_after "" Sample.preload_none_left)
                           (Preload.KeyDown "Enter")
              = Some (preload_after "" Sample.preload_none_left,
                      [Uncaught undefined_name]))
    by (vm_compute; reflexivity).
  split; [exact H|].
  exact (proj1 (proj2 (proj2 (proj2 X11_only_stale_enter_throws _ _ _ _
                                 undefined_name H (or_introl eq_refl))))).
Defined.

(* ===================================================================== *)
(** ** Further properties: keys, clicks and the index                     *)
(* ===================================================================== *)

Module Range.

Lemma live_step_range (w w' : Live.World) (ev : Live.Event) (tr : list Effect) :
  -1 <= Live.highlightedIndex (Live.cells w)
     <= array_length (Live.filteredSuggestions (Live.cells w)) - 1 ->
  (forall v, ev <> Live.Change v) -> (forall q o, ev <> Live.Settle q o) ->
  Live.step w ev = Some (w', tr) ->
  -1 <= Live.highlightedIndex (Live.cells w')
     <= array_length (Live.filteredSuggestions (Live.cells w')) - 1.
Proof.
  intros Hinv Hc Hs. live_step_cases w ev;
    try (exfalso; now eapply Hc); try (exfalso; now eapply Hs);
    repeat match goal with
           | H : (_ && _)%bool = true |- _ => apply andb_prop in H; destruct H
           | H : (_ <? _) = true |- _ => apply Z.ltb_lt in H
           | H : (_ >? _) = true |- _ => apply Z.gtb_lt in H
           end; cbn; lia.
Qed.

Lemma preload_step_range (w w' : Preload.World) (ev : Preload.Event)
      (tr : list Effect) :
  -1 <= Preload.highlightedIndex (Preload.cells w)
     <= array_length (Preload.filteredSuggestions (Preload.cells w)) - 1 ->
  (forall v, ev <> Preload.Change v) -> (forall o, ev <> Preload.Settle o) ->
  Preload.step w ev = Some (w', tr) ->
  -1 <= Preload.highlightedIndex (Preload.cells w')
     <= array_length (Preload.filteredSuggestions (Preload.cells w')) - 1.
Proof.
  intros Hinv Hc Hs. preload_step_cases w ev;
    try (exfalso; now eapply Hc); try (exfalso; now eapply Hs);
    repeat match goal with
           | H : (_ && _)%bool = true |- _ => apply andb_prop in H; destruct H
           | H : (_ <? _) = true |- _ => apply Z.ltb_lt in H
           | H : (_ >? _) = true |- _ => apply Z.gtb_lt in H
           end; cbn; lia.
Qed.

End Range.

(** X12. In both hooks, keys, clicks on entries and mousedowns keep the
    index within the filtered list: from an index in [-1, n-1], every event
    other than an input change or a settled request leads to an index in
    [-1, n'-1] for the new length n'.  Only the events that store a new
    filtered list can leave the index out of range. *)
Theorem X12_navigation_keeps_index_in_range :
  (forall (w w' : Live.World) (ev : Live.Event) (tr : list Effect),
      -1 <= Live.highlightedIndex (Live.cells w)
         <= array_length (Live.filteredSuggestions (Live.cells w)) - 1 ->
      (forall v, ev <> Live.Change v) -> (forall q o, ev <> Live.Settle q o) ->
      Live.step w ev = Some (w', tr) ->
      -1 <= Live.highlightedIndex (Live.cells w')
         <= array_length (Live.filteredSuggestions (Live.cells w')) - 1)
  /\
  (forall (w w' : Preload.World) (ev : Preload.Event) (tr : list Effect),
      -1 <= Preload.highlightedIndex (Preload.cells w)
         <= array_length (Preload.filteredSuggestions (Preload.cells w)) - 1 ->
      (forall v, ev <> Preload.Change v) -> (forall o, ev <> Preload.Settle o) ->
      Preload.step w ev = Some (w', tr) ->
      -1 <= Preload.highlightedIndex (Preload.cells w')
         <= array_length (Preload.filteredSuggestions (Preload.cells w')) - 1).
Proof.
  split; [exact Range.live_step_range | exact Range.preload_step_range].
Qed.

Lemma X12_navigation_keeps_index_in_range_witness :
  -1 <= Live.highlightedIndex Sample.live_two
     <= array_length (Live.filteredSuggestions Sample.live_two) - 1
  /\ -1 <= 0 <= array_length (Live.filteredSuggestions Sample.live_two) - 1.
Proof.
  assert (H : -1 <= Live.highlightedIndex Sample.live_two
                 <= array_length (Live.filteredSuggestions Sample.live_two) - 1)
    by (vm_compute; split; discriminate).
  split; [exact H|].
  refine (proj1 X12_navigation_keeps_index_in_range
            {| Live.cells := Sample.live_two; Live.inflight := [] |}
            {| Live.cells :=
                 {| Live.inputValue := "mar";
                    Live.filteredSuggestions :=
                      [to_suggestion Sample.margo; to_suggestion Sample.mark];
                    Live.highlightedIndex := 0; Live.showSuggestions := true;
                    Live.loading := false; Live.error := None |};
               Live.inflight := [] |}
            (Live.KeyDown "ArrowDown") [] H _ _ _); try discriminate.
  reflexivity.
Defined.

(** X13. Right after a selection every key is inert, in both hooks: on the
    cells a selection leaves, a key (Enter included) writes nothing that
    changes them and calls nothing, so a second Enter does not select
    again. *)
Theorem X13_keys_inert_after_selection (s : Suggestion) (key : string) :
  (forall st st' : Live.State,
      fst (Live.run_handler (Live.handleClick (Some s)) st) = st' ->
      Live.handleKeyDown st' key st' = (inr tt, st', []))
  /\
  (forall st st' : Preload.State,
      fst (Preload.run_handler (Preload.handleClick (Some s)) st) = st' ->
      Preload.handleKeyDown st' key st' = (inr tt, st', [])).
Proof.
  split; intros st st' <-.
  - unfold Live.handleKeyDown. cbn.
    destruct (String.eqb key "ArrowDown"), (String.eqb key "ArrowUp"),
      (String.eqb key "Enter"); reflexivity.
  - unfold Preload.handleKeyDown. cbn.
    destruct (String.eqb key "ArrowDown"), (String.eqb key "ArrowUp"),
      (String.eqb key "Enter"); reflexivity.
Qed.

Lemma X13_keys_inert_after_selection_witness :
  Live.handleKeyDown
    (fst (Live.run_handler (Live.handleClick (Some (to_suggestion Sample.mark)))
                           Sample.live_two))
    "Enter"
    (fst (Live.run_handler (Live.handleClick (Some (to_suggestion Sample.mark)))
                           Sample.live_two))
  = (inr tt,
     fst (Live.run_handler (Live.handleClick (Some (to_suggestion Sample.mark)))
                           Sample.live_two),
     []).
Proof.
  exact (proj1 (X13_keys_inert_after_selection (to_suggestion Sample.mark) "Enter")
               Sample.live_two _ eq_refl).
Defined.

(* ===================================================================== *)
(** ** Further properties: the requests of the live-query hook            *)
(* ===================================================================== *)

Module Requests.

Lemma live_step_requests (w w' : Live.World) (ev : Live.Event) (tr : list Effect) :
  Live.step w ev = Some (w', tr) ->
  (forall u, In (NetCall u) tr ->
             exists v, In v (changes [ev]) /\ v <> "" /\ u = Live.url v)
  /\ (net_calls tr <= List.length (changes [ev]))%nat.
Proof.
  live_step_cases w ev; cbn; split; try lia;
    intros u Hu;
    repeat match goal with
           | H : _ \/ _ |- _ => destruct H
           | H : False |- _ => destruct H
           end; try discriminate.
  match goal with H : NetCall _ = NetCall _ |- _ => injection H as <- end.
  exists userInput. split_conj; auto. now apply truthy_spec.
Qed.

Lemma changes_cons (ev : Live.Event) (evs : list Live.Event) :
  changes (ev :: evs) = changes [ev] ++ changes evs.
Proof. unfold changes. simpl. now rewrite app_nil_r. Qed.

Lemma live_run_requests (evs : list Live.Event) :
  forall (w w' : Live.World) (tr : list Effect),
    Live.run w evs = Some (w', tr) ->
    (forall u, In (NetCall u) tr ->
               exists v, In v (changes evs) /\ v <> "" /\ u = Live.url v)
    /\ (net_calls tr <= List.length (changes evs))%nat.
Proof.
  induction evs as [|ev evs IH]; intros w w' tr; simpl Live.run.
  - intros E. injection E as _ <-.
    split; [intros u [] | unfold net_calls, changes; simpl; lia].
  - destruct (Live.step w ev) as [[w1 t1]|] eqn:Es; [|discriminate].
    destruct (Live.run w1 evs) as [[w2 t2]|] eqn:Er; [|discriminate].
    intros E. injection E as _ <-.
    destruct (live_step_requests _ _ _ _ Es) as [Hs1 Hs2].
    destruct (IH _ _ _ Er) as [Hr1 Hr2].
    rewrite changes_cons. split.
    + intros u Hu. apply in_app_or in Hu. destruct Hu as [Hu | Hu].
      * destruct (Hs1 u Hu) as [v [Hv H]]. exists v. split; [|exact H].
        apply in_or_app. now left.
      * destruct (Hr1 u Hu) as [v [Hv H]]. exists v. split; [|exact H].
        apply in_or_app. now right.
    + rewrite net_calls_app, length_app. lia.
Qed.

End Requests.

(** X14. Over any sequence of events of the live-query hook, every request
    made is the request for the non-empty value of one of the input
    changes of the sequence, and there are at most as many requests as
    input changes: keys, clicks, mousedowns and answers never fetch. *)
Theorem X14_live_requests_are_typed_values
  (query : string) (evs : list Live.Event) (w : Live.World) (tr : list Effect)
  (Hrun : Live.run (Live.mount query) evs = Some (w, tr)) :
  (forall u, In (NetCall u) tr ->
             exists v, In v (changes evs) /\ v <> "" /\ u = Live.url v)
  /\ (net_calls tr <= List.length (changes evs))%nat.
Proof. exact (Requests.live_run_requests evs _ _ _ Hrun). Qed.

Lemma X14_live_requests_are_typed_values_witness :
  Live.run (Live.mount "") Sample.live_late_answer
  = Some (live_after "" Sample.live_late_answer,
          [NetCall "https://jsonplaceholder.typicode.com/users?q=a"])
  /\ (net_calls [NetCall "https://jsonplaceholder.typicode.com/users?q=a"]
      <= List.length (changes Sample.live_late_answer))%nat.
Proof.
  assert (H : Live.run (Live.mount "") Sample.live_late_answer
              = Some (live_after "" Sample.live_late_answer,
                      [NetCall "https://jsonplaceholder.typicode.com/users?q=a"]))
    by (vm_compute; reflexivity).
  split; [exact H|].
  exact (proj2 (X14_live_requests_are_typed_values _ _ _ _ H)).
Defined.



(* ===================================================================== *)
(** ** Further properties: from a keystroke to the view                   *)
(* ===================================================================== *)

Module Scenario.

Lemma mapi_from_unhighlighted (xs : list Suggestion) (i : Z) :
  0 <= i ->
  mapi_from (fun s index => (s, index =? -1)) i xs = map (fun s => (s, false)) xs.
Proof.
  revert i. induction xs as [|x xs IH]; intros i Hi; simpl; [reflexivity|].
  rewrite IH by lia. destruct (Z.eqb_spec i (-1)); [lia | reflexivity].
Qed.

Lemma array_length_pos {A} (x : A) (xs : list A) :
  (array_length (x :: xs) >? 0) = true.
Proof.
  unfold array_length. simpl List.length. rewrite Nat2Z.inj_succ.
  apply Z.gtb_lt. lia.
Qed.

(** The two hooks filter alike: projecting and filtering commute. *)
Lemma filter_users_as_suggestions (v : string) (data : list RemoteUser) :
  Live.filter_users v data = Preload.filter_suggestions v (map to_suggestion data).
Proof.
  unfold Live.filter_users, Preload.filter_suggestions.
  induction data as [|u data IH]; simpl; [reflexivity|].
  destruct (includes (toLowerCase (user_name u)) (toLowerCase v)); simpl;
    now rewrite IH.
Qed.

End Scenario.

(** X16. From the first keystroke to the view, for a value [v] that is an
    ASCII string without regular-expression syntax and a listing of ASCII
    names.  Live-query hook, right after the mount: typing [v] as the first
    keystroke and getting a successful answer makes one request and renders
    the matching records in the order of the answer, none highlighted, or
    the no-match view when no record matches; a failed answer renders the
    error view with the message of the failure.  Preload hook: when the
    request of the mount is answered with the listing before the first
    keystroke, typing [v] renders the same view. *)
Theorem X16_keystroke_to_view
  (query v : string) (status : N) (data : list RemoteUser)
  (Hquery : query <> v) (Hv : v <> "") (Hok : response_ok status = true)
  (Hliteral : Emphasis.literal_pattern v = true)
  (Hascii : is_ascii v = true) (Hdata : ascii_users data) :
  (exists w,
      Live.run (Live.mount query)
               [Live.Change v; Live.Settle v (Resolved status (inr data))]
      = Some (w, [NetCall (Live.url v)])
      /\ Live.renderSuggestions (Live.cells w)
         = Some (match Live.filter_users v data with
                 | [] => NoMatchView true
                 | matches => SuggestionsView true (map (fun s => (s, false)) matches)
                 end))
  /\
  (forall (answer : FetchOutcome) (e : Exn),
      failure answer = Some e ->
      exists w,
        Live.run (Live.mount query) [Live.Change v; Live.Settle v answer]
        = Some (w, [NetCall (Live.url v)])
        /\ Live.renderSuggestions (Live.cells w)
           = Some (ErrorView false (fetch_error_message e)))
  /\
  (exists w,
      Preload.lifetime query
        [Preload.Settle (Resolved status (inr data)); Preload.Change v]
      = Some (w, [NetCall Preload.url])
      /\ Preload.renderSuggestions (Preload.cells w)
         = Some (match Live.filter_users v data with
                 | [] => NoMatchView true
                 | matches => SuggestionsView true (map (fun s => (s, false)) matches)
                 end)).
Proof.
  apply String.eqb_neq in Hquery. apply truthy_spec in Hv.
  split_conj.
  - unfold Live.run, Live.mount, Live.step, Live.run_handler, Live.handleChange,
      Live.fetchFilteredSuggestions_start, Live.fetchFilteredSuggestions_settle,
      try_catch_finally, await_json, bind.
    cbn. rewrite Hquery. cbn. rewrite Hv. cbn.
    rewrite (String.eqb_refl v), Hok. cbn.
    eexists. split; [reflexivity|].
    unfold Live.renderSuggestions. cbn. rewrite Hv.
    destruct (Live.filter_users v data) as [|s matches]; [reflexivity|].
    rewrite Scenario.array_length_pos. unfold mapi.
    now rewrite Scenario.mapi_from_unhighlighted by lia.
  - intros answer e Hfail.
    unfold Live.run, Live.mount, Live.step, Live.run_handler, Live.handleChange,
      Live.fetchFilteredSuggestions_start, Live.fetchFilteredSuggestions_settle,
      try_catch_finally, await_json, bind.
    cbn. rewrite Hquery. cbn. rewrite Hv. cbn. rewrite (String.eqb_refl v).
    unfold failure, await_json in Hfail.
    destruct answer as [e' | status' [e' | data']]; cbn in *;
      try destruct (response_ok status'); cbn in *;
      try discriminate Hfail; injection Hfail as <-;
      (eexists; split; reflexivity).
  - unfold Preload.lifetime, Preload.mount, Preload.run, Preload.step,
      Preload.run_handler, Preload.fetchAllSuggestions_start,
      Preload.fetchAllSuggestions_settle, Preload.handleChange,
      try_catch_finally, await_json, bind.
    cbn. rewrite Hok. cbn. rewrite Hv. cbn.
    eexists. split; [reflexivity|].
    unfold Preload.renderSuggestions. cbn. rewrite Hv. cbn.
    fold (Preload.filter_suggestions v (map to_suggestion data)).
    fold (Live.filter_users v data).
    rewrite Scenario.filter_users_as_suggestions.
    destruct (Preload.filter_suggestions v (map to_suggestion data))
      as [|s matches]; [reflexivity|].
    rewrite Scenario.array_length_pos. unfold mapi.
    now rewrite Scenario.mapi_from_unhighlighted by lia.
Qed.

Lemma X16_keystroke_to_view_witness :
  "" <> "mar" /\ "mar" <> "" /\ response_ok 200 = true /\
  Emphasis.literal_pattern "mar" = true /\ is_ascii "mar" = true /\
  ascii_users Sample.listing /\
  exists w,
    Live.run (Live.mount "")
             [Live.Change "mar"; Live.Settle "mar" (Resolved 200 (inr Sample.listing))]
    = Some (w, [NetCall (Live.url "mar")])
    /\ Live.renderSuggestions (Live.cells w)
       = Some (match Live.filter_users "mar" Sample.listing with
               | [] => NoMatchView true
               | matches => SuggestionsView true (map (fun s => (s, false)) matches)
               end).
Proof.
  assert (H1 : "" <> "mar") by discriminate.
  assert (H2 : "mar" <> "") by discriminate.
  assert (H3 : response_ok 200 = true) by reflexivity.
  assert (H4 : Emphasis.literal_pattern "mar" = true) by reflexivity.
  assert (H5 : is_ascii "mar" = true) by reflexivity.
  assert (H6 : ascii_users Sample.listing) by (repeat constructor).
  split_conj; try assumption.
  exact (proj1 (X16_keystroke_to_view "" "mar" 200%N Sample.listing
                  H1 H2 H3 H4 H5 H6)).
Defined.

(** X17. The two hooks filter alike: for every input and listing, the
    list the live-query hook stores from an answer is the list the preload
    hook filters from its cache of the same listing, entry for entry. *)
Theorem X17_hooks_filter_alike (v : string) (data : list RemoteUser) :
  Live.filter_users v data = Preload.filter_suggestions v (map to_suggestion data).
Proof.
  unfold Live.filter_users, Preload.filter_suggestions.
  induction data as [|user data IH]; simpl; [reflexivity|].
  destruct (includes (toLowerCase (user_name user)) (toLowerCase v)); simpl;
    now rewrite IH.
Qed.

(** X18. While the request of the mount is unanswered, the preload hook
    renders the loading view for every non-empty input, and nothing for an
    empty input, in every world it can be in. *)
Theorem X18_preload_loading_view_while_unanswered
  (query : string) (w : Preload.World)
  (Hreach : Preload.reachable query w) (Hpending : Preload.pending w = true) :
  (Preload.inputValue (Preload.cells w) <> "" ->
   Preload.renderSuggestions (Preload.cells w)
   = Some (LoadingView (Preload.showSuggestions (Preload.cells w))))
  /\ (Preload.inputValue (Preload.cells w) = "" ->
      Preload.renderSuggestions (Preload.cells w) = None).
Proof.
  pose proof (PreloadRun.preload_reachable_invariant
                (fun w => Preload.loading (Preload.cells w) = Preload.pending w)
                query eq_refl Invariants.preload_step_loading w Hreach) as Hl.
  simpl in Hl. rewrite Hpending in Hl.
  unfold Preload.renderSuggestions. rewrite Hl. split.
  - intros Hin. apply truthy_spec in Hin. now rewrite Hin.
  - intros ->. cbn. now rewrite !andb_false_r.
Qed.

Lemma X18_preload_loading_view_while_unanswered_witness :
  Preload.reachable "" (preload_after "" [Preload.Change "m"]) /\
  Preload.pending (preload_after "" [Preload.Change "m"]) = true /\
  Preload.renderSuggestions (Preload.cells (preload_after "" [Preload.Change "m"]))
  = Some (LoadingView true).
Proof.
  assert (H1 : Preload.reachable "" (preload_after "" [Preload.Change "m"]))
    by (apply PreloadRun.preload_after_reachable; vm_compute; discriminate).
  assert (H2 : Preload.pending (preload_after "" [Preload.Change "m"]) = true)
    by reflexivity.
  split; [exact H1 | split; [exact H2 |]].
  refine (proj1 (X18_preload_loading_view_while_unanswered "" _ H1 H2) _).
  vm_compute. discriminate.
Defined.

(** X19. In the live-query hook the first answer clears the loading flag
    even while a later request is unanswered: after two keystrokes and the
    answer to the first, whatever it is, the flag is clear and the second
    request is still in flight. *)
Theorem X19_live_first_answer_clears_loading
  (query first second : string) (answer : FetchOutcome)
  (Hquery : query <> first) (Hdistinct : first <> second)
  (Hfirst : first <> "") (Hsecond : second <> "") :
  exists w tr,
    Live.run (Live.mount query)
             [Live.Change first; Live.Change second; Live.Settle first answer]
    = Some (w, tr)
    /\ Live.loading (Live.cells w) = false
    /\ Live.inflight w = [second]
    /\ Live.inputValue (Live.cells w) = second.
Proof.
  apply String.eqb_neq in Hquery. apply String.eqb_neq in Hdistinct.
  apply truthy_spec in Hfirst. apply truthy_spec in Hsecond.
  unfold Live.run, Live.mount, Live.step, Live.run_handler, Live.handleChange,
    Live.fetchFilteredSuggestions_start, Live.fetchFilteredSuggestions_settle,
    try_catch_finally, await_json, bind.
  cbn. rewrite Hquery. cbn. rewrite Hfirst. cbn. rewrite Hdistinct. cbn.
  rewrite Hsecond. cbn. rewrite (String.eqb_refl first). cbn.
  destruct answer as [e | status [e | data]];
    try destruct (response_ok status); cbn;
    eexists; eexists; split_conj; reflexivity.
Qed.

Lemma X19_live_first_answer_clears_loading_witness :
  "" <> "m" /\ "m" <> "ma" /\ "m" <> "" /\ "ma" <> "" /\
  exists w tr,
    Live.run (Live.mount "")
             [Live.Change "m"; Live.Change "ma"; Live.Settle "m" Sample.ok_listing]
    = Some (w, tr)
    /\ Live.loading (Live.cells w) = false
    /\ Live.inflight w = ["ma"]
    /\ Live.inputValue (Live.cells w) = "ma".
Proof.
  assert (H1 : "" <> "m") by discriminate.
  assert (H2 : "m" <> "ma") by discriminate.
  assert (H3 : "m" <> "") by discriminate.
  assert (H4 : "ma" <> "") by discriminate.
  split_conj; try assumption.
  exact (X19_live_first_answer_clears_loading "" "m" "ma" Sample.ok_listing
           H1 H2 H3 H4).
Defined.
